(** * kombu.transport.mongodb: the MongoDB channel, embedded and verified

    The channel of [kombu/transport/mongodb.py] talks to a MongoDB
    database through pymongo.  The embedding has three layers:

    - the database server as the channel sees it: three collections
      ([messages], [messages.broadcast], [messages.routing]), the
      schema (collection names, indexes) and the reported version;
    - pymongo's cursor over the broadcast collection;
    - the methods of [Channel], written in a state-and-exception monad
      over the database, the class attribute [_fanout_queues] (one
      dict shared by every instance) and the instance attributes. *)

From stdpp Require Import gmap strings list fin_maps.
From Stdlib Require Import ZArith Lia Sorted.

Local Open Scope string_scope.
Local Open Scope Z_scope.

(** ** Exceptions and results *)

Inductive exn : Type :=
  | Empty                                  (* kombu.five.Empty *)
  | StopIteration
  | OperationFailure (args0 : string)      (* pymongo.errors.OperationFailure *)
  | NotImplementedError (msg : string)
  | KeyError (key : string)
  | AttributeError (name : string)
  | TypeError
  | InvalidOperation                       (* pymongo.errors.InvalidOperation *)
  | CollectionInvalid.                     (* pymongo.errors.CollectionInvalid *)

Inductive result (A : Type) : Type :=
  | Return (a : A)
  | Raise (e : exn).
Arguments Return {A} a.
Arguments Raise {A} e.

(** ** The database *)

(** A document of [messages] or [messages.broadcast]:
    [{'_id': ..., 'payload': ..., 'queue': ...}]. *)
Record Doc : Type := mkDoc {
  doc_id : nat;
  doc_queue : string;
  doc_payload : string
}.

(** A document of [messages.routing]. *)
Record Route : Type := mkRoute {
  r_exchange : string;
  r_queue : string;
  r_routing_key : string;
  r_pattern : string
}.

(** An index key list such as [[('queue', 1), ('_id', 1)]]; the order of
    the keys is part of the index. *)
Definition IndexKeys : Type := list (string * Z).

Inductive SchemaOp : Type :=
  | EnsureIndex (collection : string) (keys : IndexKeys)
  | CreateCollection (name : string) (size : Z) (capped : bool).

(** The server.  [version] holds the numeric components of
    [server_info()['version']] (the result of [map(int, version.split('.'))]).
    [fault], when set, makes every request fail with
    [OperationFailure(msg)].  [fam_no_match] is how findandmodify reports
    that nothing matched: [None] for a [{'value': None}] reply (servers
    from 2.0 on), [Some msg] for an operation failure with that message
    (older servers).  [schema_log] records every schema request the server
    received, also those that changed nothing.  The capped collection is
    modelled below its size bound: nothing is evicted. *)
Record Database : Type := mkDatabase {
  version : list Z;
  fault : option string;
  fam_no_match : option string;
  collections : list (string * option Z);
  indexes : list (string * IndexKeys);
  schema_log : list SchemaOp;
  coll_messages : list Doc;
  coll_broadcast : list Doc;
  coll_routing : list Route;
  next_id : nat
}.

(** ** pymongo cursors *)

(** A cursor over [messages.broadcast] in natural order.  [c_spec] is
    the filter the cursor was made with ([spec], the first positional
    parameter of [find]): [Some q] for [{'queue': q}], [None] for none,
    when the cursor ranges over every document of the collection.
    [c_started] says the query was sent, [c_retrieved] counts the
    documents handed out since, [c_killed] is set by [close()]. *)
Record Cursor : Type := mkCursor {
  c_spec : option string;
  c_skip : nat;
  c_retrieved : nat;
  c_started : bool;
  c_killed : bool
}.

(** ** The channel *)

(** [self.connection.client]: the connection parameters. *)
Record Client : Type := mkClient {
  hostname : option string;
  virtual_host : option string;
  userid : option string;
  ssl : bool;
  capped_queue_size : option Z     (* transport_options.get('capped_queue_size') *)
}.

(** An entry of [self.state.exchanges]. *)
Record Exchange : Type := mkExchange {
  ex_type : string;
  ex_table : list (string * string * string)  (* (routing_key, pattern, queue) *)
}.

(** The instance attributes of a [Channel]. *)
Record Channel : Type := mkChannel {
  connection_client : Client;
  state_exchanges : gmap string Exchange;
  _client : option string;                  (* the database handle, by name *)
  db : option string;
  bcast : option string;
  routing : option string;
  _queue_cursors : gmap string Cursor;
  _queue_readcounts : gmap string Z
}.

(** What a method of one channel can reach: the server, the class
    attribute [Channel._fanout_queues] and its own instance. *)
Record World : Type := mkWorld {
  server : Database;
  _fanout_queues : gmap string string;
  self : Channel
}.

Definition set_server (d : Database) (w : World) : World :=
  mkWorld d (_fanout_queues w) (self w).
Definition set_fanout_queues (f : gmap string string) (w : World) : World :=
  mkWorld (server w) f (self w).
Definition set_self (c : Channel) (w : World) : World :=
  mkWorld (server w) (_fanout_queues w) c.

Definition set_client (h : option string) (c : Channel) : Channel :=
  mkChannel (connection_client c) (state_exchanges c) h (db c) (bcast c)
    (routing c) (_queue_cursors c) (_queue_readcounts c).
Definition set_db (h : option string) (c : Channel) : Channel :=
  mkChannel (connection_client c) (state_exchanges c) (_client c) h (bcast c)
    (routing c) (_queue_cursors c) (_queue_readcounts c).
Definition set_bcast (h : option string) (c : Channel) : Channel :=
  mkChannel (connection_client c) (state_exchanges c) (_client c) (db c) h
    (routing c) (_queue_cursors c) (_queue_readcounts c).
Definition set_routing (h : option string) (c : Channel) : Channel :=
  mkChannel (connection_client c) (state_exchanges c) (_client c) (db c)
    (bcast c) h (_queue_cursors c) (_queue_readcounts c).
Definition set_queue_cursors (m : gmap string Cursor) (c : Channel) : Channel :=
  mkChannel (connection_client c) (state_exchanges c) (_client c) (db c)
    (bcast c) (routing c) m (_queue_readcounts c).
Definition set_queue_readcounts (m : gmap string Z) (c : Channel) : Channel :=
  mkChannel (connection_client c) (state_exchanges c) (_client c) (db c)
    (bcast c) (routing c) (_queue_cursors c) m.

(** ** The monad of channel methods *)

Definition M (A : Type) : Type := World → result A * World.

Definition ret {A} (a : A) : M A := fun w => (Return a, w).
Definition raise {A} (e : exn) : M A := fun w => (Raise e, w).
Definition bind {A B} (m : M A) (k : A → M B) : M B :=
  fun w => match m w with
           | (Return a, w') => k a w'
           | (Raise e, w') => (Raise e, w')
           end.
(** [try: m except e: h e]; attribute writes made before the exception
    stay. *)
Definition catch {A} (m : M A) (h : exn → M A) : M A :=
  fun w => match m w with
           | (Return a, w') => (Return a, w')
           | (Raise e, w') => h e w'
           end.

Global Instance M_ret : MRet M := @ret.
Global Instance M_bind : MBind M := fun A B k m => bind m k.

Definition get_self : M Channel := fun w => (Return (self w), w).
Definition modify_self (f : Channel → Channel) : M unit :=
  fun w => (Return tt, set_self (f (self w)) w).
Definition get_fanout_queues : M (gmap string string) :=
  fun w => (Return (_fanout_queues w), w).
Definition modify_fanout_queues (f : gmap string string → gmap string string)
  : M unit :=
  fun w => (Return tt, set_fanout_queues (f (_fanout_queues w)) w).

(** A request that waits for the server's reply (a command, a query, an
    index or collection creation): fails with the pending fault,
    otherwise answers and moves the database on. *)
Definition request {A} (f : Database → result A * Database) : M A :=
  fun w => match fault (server w) with
           | Some msg => (Raise (OperationFailure msg), w)
           | None => let '(r, d) := f (server w) in (r, set_server d w)
           end.

(** A write (insert, update, remove).  The channel connects with pymongo's
    [Connection], whose writes are not acknowledged: the call returns
    whatever the server does with the write, and a failing server drops
    it. *)
Definition write (f : Database → result unit * Database) : M unit :=
  fun w => match fault (server w) with
           | Some _ => (Return tt, w)
           | None => let '(r, d) := f (server w) in (r, set_server d w)
           end.

(** ** Python helpers *)

(** [needle in hay] on strings. *)
Fixpoint contains (needle hay : string) : bool :=
  String.prefix needle hay ||
  match hay with
  | EmptyString => false
  | String _ hay' => contains needle hay'
  end.

(** [s.replace(old, new)] for a non-empty [old]: every occurrence, left
    to right, without overlap.  [skip] counts the characters of a match
    still to be dropped. *)
Fixpoint replace_from (old new : string) (skip : nat) (s : string) : string :=
  match s with
  | EmptyString => EmptyString
  | String c s' =>
      match skip with
      | S k => replace_from old new k s'
      | O =>
          if String.prefix old s
          then new +:+ replace_from old new (String.length old - 1) s'
          else String c (replace_from old new 0 s')
      end
  end.
Definition replace (old new s : string) : string := replace_from old new 0 s.

(** Comparison [a < b] of tuples of integers. *)
Fixpoint tuple_lt (a b : list Z) : bool :=
  match a, b with
  | [], [] => false
  | [], _ :: _ => true
  | _ :: _, [] => false
  | x :: a', y :: b' =>
      if x <? y then true else if y <? x then false else tuple_lt a' b'
  end.

(** [x or default] for a string that may be [None]. *)
Definition str_or (x : option string) (default : string) : string :=
  match x with
  | Some (String c s) => String c s
  | _ => default
  end.

(** [not x] for a string that may be [None]. *)
Definition falsy (x : option string) : bool :=
  match x with
  | Some (String _ _) => false
  | _ => true
  end.

(** anyjson's [dumps] and [loads] on the messages of the application. *)
Class Json (Message : Type) : Type := {
  dumps : Message → string;
  loads : string → Message
}.

(** What is serialized comes back. *)
Class JsonRoundTrip (Message : Type) `{Json Message} : Prop :=
  loads_dumps : ∀ m : Message, loads (dumps m) = m.

(** ** Requests to the server *)

Definition set_schema (cs : list (string * option Z))
    (ix : list (string * IndexKeys)) (lg : list SchemaOp) (d : Database)
  : Database :=
  mkDatabase (version d) (fault d) (fam_no_match d) cs ix lg
    (coll_messages d) (coll_broadcast d) (coll_routing d) (next_id d).
Definition set_messages (l : list Doc) (n : nat) (d : Database) : Database :=
  mkDatabase (version d) (fault d) (fam_no_match d) (collections d)
    (indexes d) (schema_log d) l (coll_broadcast d) (coll_routing d) n.
Definition set_broadcast (l : list Doc) (n : nat) (d : Database) : Database :=
  mkDatabase (version d) (fault d) (fam_no_match d) (collections d)
    (indexes d) (schema_log d) (coll_messages d) l (coll_routing d) n.
Definition set_routing_rows (l : list Route) (d : Database) : Database :=
  mkDatabase (version d) (fault d) (fam_no_match d) (collections d)
    (indexes d) (schema_log d) (coll_messages d) (coll_broadcast d) l
    (next_id d).

Definition queue_is (queue : string) (d : Doc) : bool :=
  String.eqb (doc_queue d) queue.

(** [find({'queue': queue})] in natural order. *)
Definition find_docs (queue : string) (l : list Doc) : list Doc :=
  List.filter (queue_is queue) l.

(** The first document in [sort={'_id': ASCENDING}] order among those
    matching [{'queue': queue}]: the one with the smallest identifier. *)
Fixpoint min_id_doc (queue : string) (l : list Doc) : option Doc :=
  match l with
  | [] => None
  | d :: l' =>
      if queue_is queue d then
        match min_id_doc queue l' with
        | Some d' => if (doc_id d' <? doc_id d)%nat then Some d' else Some d
        | None => Some d
        end
      else min_id_doc queue l'
  end.

(** Removal of the document with identifier [i]. *)
Fixpoint remove_id (i : nat) (l : list Doc) : list Doc :=
  match l with
  | [] => []
  | d :: l' => if (doc_id d =? i)%nat then l' else d :: remove_id i l'
  end.

(** [server_info()['version']] *)
Definition server_info (d : Database) : result (list Z) * Database :=
  (Return (version d), d).

(** [database.collection_names()] *)
Definition collection_names (d : Database) : result (list string) * Database :=
  (Return (map fst (collections d)), d).

Definition has_collection (name : string) (d : Database) : bool :=
  existsb (String.eqb name) (map fst (collections d)).

Definition has_index (collection : string) (keys : IndexKeys) (d : Database)
  : bool :=
  bool_decide ((collection, keys) ∈ indexes d).

(** [database.create_collection(name, size=size, capped=capped)] *)
Definition create_collection (name : string) (size : Z) (capped : bool)
    (d : Database) : result unit * Database :=
  if has_collection name d then (Raise CollectionInvalid, d)
  else (Return tt,
        set_schema (collections d ++ [(name, if capped then Some size else None)])
          (indexes d)
          (schema_log d ++ [CreateCollection name size capped]) d).

(** [collection.ensure_index(keys)]: builds the index unless it is there;
    an index on a collection that does not exist creates the collection. *)
Definition ensure_index (collection : string) (keys : IndexKeys)
    (d : Database) : result unit * Database :=
  (Return tt,
   set_schema
     (if has_collection collection d then collections d
      else collections d ++ [(collection, None)])
     (if has_index collection keys d then indexes d
      else indexes d ++ [(collection, keys)])
     (schema_log d ++ [EnsureIndex collection keys]) d).

(** [messages.insert({'payload': payload, 'queue': queue})]: the document
    gets the next identifier. *)
Definition messages_insert (payload queue : string) (d : Database)
  : result unit * Database :=
  (Return tt,
   set_messages (coll_messages d ++ [mkDoc (next_id d) queue payload])
     (S (next_id d)) d).

(** [command('findandmodify', 'messages', query={'queue': queue},
    sort={'_id': ASCENDING}, remove=True)]; the result is [msg['value']]. *)
Definition findandmodify (queue : string) (d : Database)
  : result (option Doc) * Database :=
  match min_id_doc queue (coll_messages d) with
  | Some doc =>
      (Return (Some doc),
       set_messages (remove_id (doc_id doc) (coll_messages d)) (next_id d) d)
  | None =>
      match fam_no_match d with
      | None => (Return None, d)
      | Some msg => (Raise (OperationFailure msg), d)
      end
  end.

(** [messages.find({'queue': queue}).count()] *)
Definition messages_count (queue : string) (d : Database)
  : result Z * Database :=
  (Return (Z.of_nat (length (find_docs queue (coll_messages d)))), d).

(** [messages.remove({'queue': queue})] *)
Definition messages_remove (queue : string) (d : Database)
  : result unit * Database :=
  (Return tt,
   set_messages (List.filter (λ x, negb (queue_is queue x)) (coll_messages d))
     (next_id d) d).

(** [messages.broadcast.insert({'payload': payload, 'queue': exchange})] *)
Definition broadcast_insert (payload exchange : string) (d : Database)
  : result unit * Database :=
  (Return tt,
   set_broadcast (coll_broadcast d ++ [mkDoc (next_id d) exchange payload])
     (S (next_id d)) d).

(** The documents matching the filter of a cursor. *)
Definition match_spec (spec : option string) (l : list Doc) : list Doc :=
  match spec with
  | Some queue => find_docs queue l
  | None => l
  end.

(** The documents a broadcast cursor with filter [spec] ranges over. *)
Definition broadcast_find (spec : option string) (d : Database)
  : result (list Doc) * Database :=
  (Return (match_spec spec (coll_broadcast d)), d).

Definition route_eqb (a b : Route) : bool :=
  String.eqb (r_exchange a) (r_exchange b) &&
  String.eqb (r_queue a) (r_queue b) &&
  String.eqb (r_routing_key a) (r_routing_key b) &&
  String.eqb (r_pattern a) (r_pattern b).

(** [routing.update(meta, meta, upsert=True)]: the first row matching
    [meta] is replaced by [meta]; without one, [meta] is inserted. *)
Fixpoint upsert (meta : Route) (l : list Route) : list Route :=
  match l with
  | [] => [meta]
  | r :: l' => if route_eqb r meta then meta :: l' else r :: upsert meta l'
  end.

Definition routing_update (meta : Route) (d : Database)
  : result unit * Database :=
  (Return tt, set_routing_rows (upsert meta (coll_routing d)) d).

(** [routing.remove({'queue': queue})] *)
Definition routing_remove (queue : string) (d : Database)
  : result unit * Database :=
  (Return tt,
   set_routing_rows
     (List.filter (λ r, negb (String.eqb (r_queue r) queue)) (coll_routing d)) d).

(** [routing.find({'exchange': exchange})] *)
Definition routing_find (exchange : string) (d : Database)
  : result (list Route) * Database :=
  (Return (List.filter (λ r, String.eqb (r_exchange r) exchange)
             (coll_routing d)), d).

(** ** Cursor methods *)

(** [bcast.find(query={'queue': exchange}, sort=[('$natural', 1)],
    tailable=True)]: nothing is sent yet.  The filter of pymongo's [find]
    is its positional parameter [spec] (as [messages.find({'queue':
    queue})] in [_size] passes it); [query] is not a parameter of the
    cursor, it is taken with the other keyword arguments and never read
    as a filter.  The cursor is made without a filter. *)
Definition Cursor_find (query : string) : Cursor :=
  mkCursor None 0 0 false false.

(** [cursor.skip(n)]: refused once the query was sent. *)
Definition Cursor_skip (n : nat) (c : Cursor) : result Cursor :=
  if c_started c then Raise InvalidOperation
  else Return (mkCursor (c_spec c) n (c_retrieved c) (c_started c) (c_killed c)).

(** [cursor.rewind()] *)
Definition Cursor_rewind (c : Cursor) : Cursor :=
  mkCursor (c_spec c) (c_skip c) 0 false false.

(** [next(cursor)] against the documents matching its query: the cursor
    is tailable, so after an exhausted read it stays where it is and
    sees what is appended later. *)
Definition Cursor_next (docs : list Doc) (c : Cursor) : option Doc * Cursor :=
  match docs !! (c_skip c + c_retrieved c)%nat with
  | Some d =>
      (Some d, mkCursor (c_spec c) (c_skip c) (S (c_retrieved c)) true (c_killed c))
  | None =>
      (None, mkCursor (c_spec c) (c_skip c) (c_retrieved c) true (c_killed c))
  end.

(** ** Channel methods *)

Definition DEFAULT_HOST : string := "127.0.0.1".
Definition NO_MATCH : string := "No matching object found".

(** [Connection(host=mongo_uri, ssl=client.ssl)]: there is one server, the
    one of the [World]. *)
Definition Connection (host : string) (use_ssl : bool) : M unit := mret tt.

(** [Channel._open] *)
Definition _open : M string :=
  c ← get_self;
  let client := connection_client c in
  let hostname0 := str_or (hostname client) DEFAULT_HOST in
  let root := bool_decide (virtual_host client = Some "/" ∨ virtual_host client = None) in
  let dbname := if root then "kombu_default" else default "" (virtual_host client) in
  let authdb := if root then "admin" else default "" (virtual_host client) in
  hostname1 ← match virtual_host client with
              | None => raise TypeError      (* '/' + None *)
              | Some vh =>
                  mret (if falsy (userid client)
                        then replace ("/" +:+ vh) "/" hostname0
                        else replace ("/" +:+ vh) ("/" +:+ authdb) hostname0)
              end;
  let mongo_uri := "mongodb://" +:+ hostname1 in
  Connection mongo_uri (ssl client);;
  let database := dbname in
  v ← request server_info;
  if tuple_lt (take 2 v) [1; 3] then raise (NotImplementedError "Kombu requires MongoDB version 1.3+")
  else
    modify_self (set_db (Some database));;
    request (ensure_index "messages" [("queue", 1); ("_id", 1)]);;
    names ← request collection_names;
    (if negb (existsb (String.eqb "messages.broadcast") names) then
       let capsize := match capped_queue_size client with
                      | Some n => if n =? 0 then 100000 else n
                      | None => 100000
                      end in
       request (create_collection "messages.broadcast" capsize true)
     else mret tt);;
    modify_self (set_bcast (Some "messages.broadcast"));;
    request (ensure_index "messages.broadcast" [("queue", 1)]);;
    modify_self (set_routing (Some "messages.routing"));;
    request (ensure_index "messages.routing" [("queue", 1); ("exchange", 1)]);;
    mret database.

(** [Channel.client] (a property) *)
Definition client : M string :=
  c ← get_self;
  match _client c with
  | None => h ← _open; modify_self (set_client (Some h));; mret h
  | Some h => mret h
  end.

(** [Channel._new_queue] *)
Definition _new_queue (queue : string) : M unit := mret tt.

(** [self._queue_cursors[queue]] *)
Definition cursor_of (queue : string) : M Cursor :=
  c ← get_self;
  match _queue_cursors c !! queue with
  | Some cur => mret cur
  | None => raise (KeyError queue)
  end.

(** A cursor is a mutable object held in [_queue_cursors]; each queue has
    an object of its own, so a method call on it is an update of that
    entry. *)
Definition store_cursor (queue : string) (cur : Cursor) : M unit :=
  modify_self (λ c, set_queue_cursors (<[queue := cur]> (_queue_cursors c)) c).

(** [cursor.count()]: all documents matching the query, whatever the
    skip. *)
Definition Cursor_count (cur : Cursor) : M nat :=
  docs ← request (broadcast_find (c_spec cur));
  mret (length docs).

(** [next(self._queue_cursors[queue])] *)
Definition next (queue : string) : M Doc :=
  cur ← cursor_of queue;
  if c_killed cur then raise StopIteration
  else
    docs ← request (broadcast_find (c_spec cur));
    let '(r, cur') := Cursor_next docs cur in
    store_cursor queue cur';;
    match r with
    | Some d => mret d
    | None => raise StopIteration
    end.

(** [Channel._ensure_cursor] *)
Definition _ensure_cursor (queue : string) : M unit :=
  client;;
  fq ← get_fanout_queues;
  match fq !! queue with
  | None => raise (KeyError queue)
  | Some exchange =>
      c ← get_self;
      match _queue_cursors c !! queue with
      | Some _ => mret tt
      | None =>
          let cursor := Cursor_find exchange in
          count ← Cursor_count cursor;
          match Cursor_skip count cursor with
          | Raise e => raise e
          | Return cursor' =>
              store_cursor queue cursor';;
              modify_self (λ c, set_queue_readcounts
                                  (<[queue := Z.of_nat count]> (_queue_readcounts c)) c)
          end
      end
  end.

(** [self._queue_readcounts[queue] += 1] *)
Definition incr_readcount (queue : string) : M unit :=
  c ← get_self;
  match _queue_readcounts c !! queue with
  | None => raise (KeyError queue)
  | Some n =>
      modify_self (λ c, set_queue_readcounts
                          (<[queue := n + 1]> (_queue_readcounts c)) c)
  end.

(** [Channel._get].  The body of the [try] either returns a message
    ([inl]) or leaves [msg['value']] for the code after it ([inr]). *)
Definition _get {Message} `{Json Message} (queue : string) : M Message :=
  r ← catch
        (fq ← get_fanout_queues;
         if bool_decide (is_Some (fq !! queue)) then
           _ensure_cursor queue;;
           msg ← next queue;
           incr_readcount queue;;
           mret (inl (loads (doc_payload msg)))
         else
           client;;
           msg ← request (findandmodify queue);
           mret (inr msg))
        (λ exc,
           match exc with
           | OperationFailure args0 =>
               if contains NO_MATCH args0 then raise Empty else raise exc
           | StopIteration => raise Empty
           | _ => raise exc
           end);
  match r with
  | inl m => mret m
  | inr None => raise Empty
  | inr (Some d) => mret (loads (doc_payload d))
  end.

(** [Channel._size] *)
Definition _size (queue : string) : M Z :=
  fq ← get_fanout_queues;
  if bool_decide (is_Some (fq !! queue)) then
    _ensure_cursor queue;;
    cur ← cursor_of queue;
    n ← Cursor_count cur;
    c ← get_self;
    match _queue_readcounts c !! queue with
    | None => raise (KeyError queue)
    | Some rc => mret (Z.of_nat n - rc)
    end
  else
    client;;
    request (messages_count queue).

(** [Channel._put] *)
Definition _put {Message} `{Json Message} (queue : string) (message : Message)
  : M unit :=
  client;;
  write (messages_insert (dumps message) queue).

(** [Channel._purge] *)
Definition _purge (queue : string) : M Z :=
  size ← _size queue;
  fq ← get_fanout_queues;
  (if bool_decide (is_Some (fq !! queue)) then
     cursor ← cursor_of queue;
     let rewound := Cursor_rewind cursor in
     store_cursor queue rewound;;
     n ← Cursor_count rewound;
     match Cursor_skip n rewound with
     | Raise e => raise e
     | Return cursor' => store_cursor queue cursor'
     end
   else
     client;;
     write (messages_remove queue));;
  mret size.

(** Modelled from the spec: [virtual.Channel.typeof(exchange).type], of
    the channel framework, is not part of the source at hand; the type an
    exchange was declared with, [direct] for an unknown exchange. *)
Definition typeof (c : Channel) (exchange : string) : string :=
  match state_exchanges c !! exchange with
  | Some ex => ex_type ex
  | None => "direct"
  end.

(** [Channel.get_table] *)
Definition get_table (exchange : string) : M (gset (string * string * string)) :=
  c ← get_self;
  match state_exchanges c !! exchange with
  | None => raise (KeyError exchange)
  | Some ex =>
      let localRoutes : gset (string * string * string) :=
        list_to_set (ex_table ex) in
      client;;
      brokerRoutes ← request (routing_find exchange);
      mret (localRoutes ∪
            list_to_set (map (λ r, (r_routing_key r, r_pattern r, r_queue r))
                           brokerRoutes))
  end.

(** [Channel._put_fanout] *)
Definition _put_fanout {Message} `{Json Message} (exchange : string)
    (message : Message) : M unit :=
  client;;
  write (broadcast_insert (dumps message) exchange).

(** [Channel._queue_bind] *)
Definition _queue_bind (exchange routing_key pattern queue : string) : M unit :=
  c ← get_self;
  (if String.eqb (typeof c exchange) "fanout" then
     modify_fanout_queues (<[queue := exchange]>);;
     _ensure_cursor queue
   else mret tt);;
  let meta := mkRoute exchange queue routing_key pattern in
  client;;
  write (routing_update meta).

(** [Channel.queue_delete].  [super_queue_delete] stands for
    [virtual.Channel.queue_delete], the base deletion of the channel
    framework.  Closing the popped cursor leaves nothing behind: the
    object is dropped. *)
Definition queue_delete (super_queue_delete : string → M unit) (queue : string)
  : M unit :=
  c ← get_self;
  match routing c with
  | None => raise (AttributeError "routing")
  | Some _ =>
      write (routing_remove queue);;
      super_queue_delete queue;;
      fq ← get_fanout_queues;
      if bool_decide (is_Some (fq !! queue)) then
        modify_self (λ c, set_queue_cursors (delete queue (_queue_cursors c)) c);;
        modify_fanout_queues (delete queue)
      else mret tt
  end.

(** ** Several channels in one process *)

(** The channels of a process share the server and the class attribute;
    each has its own instance attributes. *)
Record Process : Type := mkProcess {
  p_server : Database;
  p_fanout_queues : gmap string string;
  p_channels : list Channel
}.

(** The world as channel [i] sees it. *)
Definition view (i : nat) (p : Process) : option World :=
  match p_channels p !! i with
  | Some c => Some (mkWorld (p_server p) (p_fanout_queues p) c)
  | None => None
  end.

(** A method call on channel [i]. *)
Definition run_on {A} (i : nat) (m : M A) (p : Process)
  : option (result A * Process) :=
  match view i p with
  | Some w =>
      let '(r, w') := m w in
      Some (r, mkProcess (server w') (_fanout_queues w')
                 (<[i := self w']> (p_channels p)))
  | None => None
  end.

(** ** Runs *)

(** Enqueue [ms] in order. *)
Fixpoint put_all {Message} `{Json Message} (queue : string) (ms : list Message)
  : M unit :=
  match ms with
  | [] => mret tt
  | m :: ms' => _put queue m;; put_all queue ms'
  end.

(** Publish [ms] to a fanout exchange in order. *)
Fixpoint publish_all {Message} `{Json Message} (exchange : string)
    (ms : list Message) : M unit :=
  match ms with
  | [] => mret tt
  | m :: ms' => _put_fanout exchange m;; publish_all exchange ms'
  end.

(** [n] dequeues in a row; the messages in the order received. *)
Fixpoint get_n {Message} `{Json Message} (queue : string) (n : nat)
  : M (list Message) :=
  match n with
  | O => mret []
  | S n' => m ← _get queue; ms ← get_n queue n'; mret (m :: ms)
  end.

(** ** Concrete inputs *)

Global Instance string_json : Json string := {| dumps := id; loads := id |}.

Definition fresh_db : Database :=
  mkDatabase [2; 4; 9] None None [] [] [] [] [] [] 0.

Definition old_db : Database :=
  mkDatabase [1; 2; 4] None (Some NO_MATCH) [] [] [] [] [] [] 0.

Definition demo_exchanges : gmap string Exchange :=
  <["logs" := mkExchange "fanout" []]>
    (<["ev" := mkExchange "direct" [("k", "p", "q")]]> ∅).

Definition fresh_channel : Channel :=
  mkChannel (mkClient (Some "localhost/") (Some "/") None false None)
    demo_exchanges None None None None ∅ ∅.

Definition fresh_world : World := mkWorld fresh_db ∅ fresh_channel.

(** A server older than 2.0: nothing matched is an operation failure. *)
Definition legacy_db : Database :=
  mkDatabase [1; 8; 5] None (Some "exception: No matching object found")
    [] [] [] [] [] [] 0.

(** A server that fails every request. *)
Definition failing_db : Database :=
  mkDatabase [2; 4; 9] (Some "not master") None [] [] [] [] [] [] 0.

(** The fresh world after binding queue [q1] to the fanout exchange
    [logs]. *)
Definition bound_world : World :=
  snd (_queue_bind "logs" "" "" "q1" fresh_world).

(** The fresh world after binding [q1] and [q2] to the fanout exchange
    [logs] and publishing one message there. *)
Definition two_bound_world : World :=
  snd ((_queue_bind "logs" "" "" "q1";;
        _queue_bind "logs" "" "" "q2";;
        _put_fanout "logs" "z") fresh_world).

(** The fresh world after binding [q1] to [logs] and publishing three
    messages there, none of them read. *)
Definition unread_world : World :=
  snd ((_queue_bind "logs" "" "" "q1";;
        publish_all "logs" ["x"; "y"; "z"]) fresh_world).

(** Two channels of one process on a fresh database. *)
Definition two_channels : Process :=
  mkProcess fresh_db ∅ [fresh_channel; fresh_channel].

(** What a second, connected channel of the process sees after the first
    one bound [q1] to [logs] and three messages were published: the
    registry entry and the stored broadcasts, and no cursor of its own. *)
Definition second_view : World :=
  mkWorld (server unread_world) (_fanout_queues unread_world)
    (set_client (Some "kombu_default") fresh_channel).

(** A channel that knows two fanout exchanges, and its world after
    binding [q1] to the first of them. *)
Definition two_exchange_channel : Channel :=
  mkChannel (mkClient (Some "localhost/") (Some "/") None false None)
    (<["logs" := mkExchange "fanout" []]>
       (<["alerts" := mkExchange "fanout" []]> ∅))
    None None None None ∅ ∅.

Definition rebind_world : World :=
  snd (_queue_bind "logs" "" "" "q1" (mkWorld fresh_db ∅ two_exchange_channel)).

(** The two channels of the process after the first one bound [q1] to
    [logs]. *)
Definition bound_channels : Process :=
  mkProcess (server bound_world) (_fanout_queues bound_world)
    [self bound_world; fresh_channel].

(** The fresh world with three messages waiting in [orders] and one in
    [jobs]. *)
Definition stocked_world : World :=
  snd ((put_all "orders" ["A"; "B"; "C"];; _put "jobs" "J") fresh_world).


(** ** Conditions on a world *)

(** The server answers requests. *)
Definition healthy (w : World) : Prop := fault (server w) = None.

(** The channel holds its database handle. *)
Definition connected (w : World) : Prop :=
  healthy w ∧ is_Some (_client (self w)).

(** The version gate of [_open] lets the server through. *)
Definition supported (d : Database) : bool :=
  negb (tuple_lt (take 2 (version d)) [1; 3]).

(** A channel that is connected or can connect at its first use. *)
Definition usable (w : World) : Prop :=
  healthy w ∧
  (is_Some (_client (self w)) ∨
   (is_Some (virtual_host (connection_client (self w))) ∧
    supported (server w) = true)).

(** [capped_queue_size or 100000] *)
Definition capsize_of (cl : Client) : Z :=
  match capped_queue_size cl with
  | Some n => if n =? 0 then 100000 else n
  | None => 100000
  end.

(** The schema requests of one bootstrap, in order. *)
Definition bootstrap_requests (cl : Client) (d : Database) : list SchemaOp :=
  [EnsureIndex "messages" [("queue", 1); ("_id", 1)]] ++
  (if has_collection "messages.broadcast" d then []
   else [CreateCollection "messages.broadcast" (capsize_of cl) true]) ++
  [EnsureIndex "messages.broadcast" [("queue", 1)];
   EnsureIndex "messages.routing" [("queue", 1); ("exchange", 1)]].

(** The database after the schema requests of one bootstrap. *)
Definition bootstrap_schema (cl : Client) (d : Database) : Database :=
  let d1 := snd (ensure_index "messages" [("queue", 1); ("_id", 1)] d) in
  let d2 := if has_collection "messages.broadcast" d1 then d1
            else snd (create_collection "messages.broadcast" (capsize_of cl)
                        true d1) in
  let d3 := snd (ensure_index "messages.broadcast" [("queue", 1)] d2) in
  snd (ensure_index "messages.routing" [("queue", 1); ("exchange", 1)] d3).

(** The database name [_open] settles on. *)
Definition dbname_of (cl : Client) : string :=
  if bool_decide (virtual_host cl = Some "/" ∨ virtual_host cl = None)
  then "kombu_default" else default "" (virtual_host cl).

(** The world after a successful first use of [client]. *)
Definition opened (w : World) : World :=
  let cl := connection_client (self w) in
  mkWorld (bootstrap_schema cl (server w)) (_fanout_queues w)
    (set_client (Some (dbname_of cl))
       (set_routing (Some "messages.routing")
          (set_bcast (Some "messages.broadcast")
             (set_db (Some (dbname_of cl)) (self w))))).

(** The world in which the channel works once [client] was read. *)
Definition ready (w : World) : World :=
  match _client (self w) with
  | Some _ => w
  | None => opened w
  end.

(** Two worlds that differ at most in the schema of the server and in the
    handles of the channel: same documents, same cursors, same
    registry. *)
Definition same_data (w w' : World) : Prop :=
  version (server w') = version (server w) ∧
  fault (server w') = fault (server w) ∧
  fam_no_match (server w') = fam_no_match (server w) ∧
  coll_messages (server w') = coll_messages (server w) ∧
  coll_broadcast (server w') = coll_broadcast (server w) ∧
  coll_routing (server w') = coll_routing (server w) ∧
  next_id (server w') = next_id (server w) ∧
  _fanout_queues w' = _fanout_queues w ∧
  connection_client (self w') = connection_client (self w) ∧
  state_exchanges (self w') = state_exchanges (self w) ∧
  _queue_cursors (self w') = _queue_cursors (self w) ∧
  _queue_readcounts (self w') = _queue_readcounts (self w).

(** The identifiers of [messages] are unique and below the next one the
    server hands out (the [_id] index of the collection). *)
Definition ids_wf (d : Database) : Prop :=
  NoDup (map doc_id (coll_messages d)) ∧
  Forall (λ x, (doc_id x < next_id d)%nat) (coll_messages d).

(** When findandmodify reports "nothing matched" as an operation failure,
    the message carries the server's text for it. *)
Definition no_match_marked (d : Database) : Prop :=
  match fam_no_match d with
  | None => True
  | Some msg => contains NO_MATCH msg = true
  end.

(** The payloads waiting in a point-to-point queue, oldest first in
    natural order. *)
Definition pending (queue : string) (w : World) : list string :=
  map doc_payload (find_docs queue (coll_messages (server w))).

(** What a point-to-point queue needs from the world to work as a FIFO:
    it is not registered as a fanout queue, and its documents lie in
    identifier order. *)
Definition p2p_inv (queue : string) (w : World) : Prop :=
  connected w ∧
  _fanout_queues w !! queue = None ∧
  ids_wf (server w) ∧
  no_match_marked (server w) ∧
  StronglySorted lt (map doc_id (find_docs queue (coll_messages (server w)))).

(** The cursor of [q] after [next], and the channel holding it. *)
Definition advance (q : string) (cur : Cursor) (c : Channel) : Channel :=
  set_queue_cursors (<[q := cur]> (_queue_cursors c)) c.

(** The channel after a successful fanout dequeue on [q]: the cursor
    moved on and the read count went up by one. *)
Definition delivered (q : string) (cur : Cursor) (rc : Z) (c : Channel)
  : Channel :=
  set_queue_readcounts (<[q := rc + 1]> (_queue_readcounts c)) (advance q cur c).

(** The documents the cursor of a fanout queue ranges over. *)
Definition feed (cur : Cursor) (w : World) : list Doc :=
  match_spec (c_spec cur) (coll_broadcast (server w)).

(** What a method leaves alone for fanout queue [q] when it works on
    another queue: the health of the server, the broadcast collection,
    the registry, a handle once held, and the cursor and read count of
    [q]. *)
Definition kept (q : string) (w w' : World) : Prop :=
  fault (server w') = fault (server w) ∧
  coll_broadcast (server w') = coll_broadcast (server w) ∧
  _fanout_queues w' = _fanout_queues w ∧
  (is_Some (_client (self w)) → _client (self w') = _client (self w)) ∧
  _queue_cursors (self w') !! q = _queue_cursors (self w) !! q ∧
  _queue_readcounts (self w') !! q = _queue_readcounts (self w) !! q.

(** [m] relates every world to the world it leaves, whatever it
    returns or raises. *)
Definition preserves {A} (R : World → World → Prop) (m : M A) : Prop :=
  ∀ w, R w (snd (m w)).

(** A request that touches neither the fault nor the broadcast
    collection. *)
Definition off_broadcast {A} (f : Database → result A * Database) : Prop :=
  ∀ d, fault (snd (f d)) = fault d ∧
       coll_broadcast (snd (f d)) = coll_broadcast d.

(** A fanout queue [q] in working order: registered for exchange [E],
    with a live cursor as [_ensure_cursor] makes it (no filter) that
    stands inside its feed; [unread] are the payloads from the cursor
    on. *)
Definition fan_inv (q E : string) (unread : list string) (w : World) : Prop :=
  connected w ∧
  _fanout_queues w !! q = Some E ∧
  ∃ cur rc,
    _queue_cursors (self w) !! q = Some cur ∧
    _queue_readcounts (self w) !! q = Some rc ∧
    c_spec cur = None ∧
    c_killed cur = false ∧
    (c_skip cur + c_retrieved cur ≤ length (feed cur w))%nat ∧
    map doc_payload (drop (c_skip cur + c_retrieved cur) (feed cur w)) = unread.

(** The number of documents in the broadcast collection. *)
Definition broadcasts (w : World) : nat :=
  length (coll_broadcast (server w)).


(** The rows of the routing collection equal to [meta]. *)
Definition rows_of (meta : Route) (l : list Route) : list Route :=
  List.filter (λ r, route_eqb r meta) l.

(** The entry of [get_table] a routing row stands for. *)
Definition entry_of (r : Route) : string * string * string :=
  (r_routing_key r, r_pattern r, r_queue r).

(** How often an entry occurs among the elements of a table. *)
Definition occurrences (x : string * string * string)
    (t : gset (string * string * string)) : nat :=
  count_occ (λ a b, decide (a = b)) (elements t) x.

(** A fanout queue in working order whose read count is the position of
    its cursor, as it is from the first bind until a purge. *)
Definition fan_sync (q E : string) (unread : list string) (w : World) : Prop :=
  connected w ∧
  _fanout_queues w !! q = Some E ∧
  ∃ cur,
    _queue_cursors (self w) !! q = Some cur ∧
    _queue_readcounts (self w) !! q
      = Some (Z.of_nat (c_skip cur + c_retrieved cur)) ∧
    c_spec cur = None ∧
    c_killed cur = false ∧
    (c_skip cur + c_retrieved cur ≤ length (feed cur w))%nat ∧
    map doc_payload (drop (c_skip cur + c_retrieved cur) (feed cur w)) = unread.

(** * Proofs *)

Local Arguments String.eqb : simpl never.
Local Arguments String.prefix : simpl never.
Local Arguments replace : simpl never.
Local Arguments contains : simpl never.
Local Arguments tuple_lt : simpl never.
Local Arguments take : simpl never.
Local Arguments Z.of_nat : simpl never.
Local Arguments Z.sub : simpl never.
Local Arguments Z.add : simpl never.

(** ** The monad *)

Lemma bind_eq {A B} (m : M A) (k : A → M B) (w : World) :
  (m ≫= k) w =
  match m w with
  | (Return a, w') => k a w'
  | (Raise e, w') => (Raise e, w')
  end.
Proof. reflexivity. Qed.

Lemma bind_return {A B} (m : M A) (k : A → M B) w a w' :
  m w = (Return a, w') → (m ≫= k) w = k a w'.
Proof. intros E. rewrite bind_eq, E. reflexivity. Qed.

Lemma bind_raise {A B} (m : M A) (k : A → M B) w e w' :
  m w = (Raise e, w') → (m ≫= k) w = (Raise e, w').
Proof. intros E. rewrite bind_eq, E. reflexivity. Qed.

Lemma request_healthy {A} (f : Database → result A * Database) w :
  healthy w →
  request f w = (fst (f (server w)), set_server (snd (f (server w))) w).
Proof.
  unfold healthy, request. intros ->. destruct (f (server w)); reflexivity.
Qed.

Lemma write_healthy (f : Database → result unit * Database) w :
  healthy w →
  write f w = (fst (f (server w)), set_server (snd (f (server w))) w).
Proof.
  unfold healthy, write. intros ->. destruct (f (server w)); reflexivity.
Qed.

Lemma write_fault (f : Database → result unit * Database) w msg :
  fault (server w) = Some msg → write f w = (Return tt, w).
Proof. unfold write. intros ->. reflexivity. Qed.

Lemma request_fault {A} (f : Database → result A * Database) w msg :
  fault (server w) = Some msg →
  request f w = (Raise (OperationFailure msg), w).
Proof. unfold request. intros ->. reflexivity. Qed.

(** ** Bootstrap *)

Lemma client_cached w h :
  _client (self w) = Some h → client w = (Return h, w).
Proof. unfold client. rewrite bind_eq. simpl. intros ->. reflexivity. Qed.

Lemma open_supported w :
  healthy w →
  is_Some (virtual_host (connection_client (self w))) →
  supported (server w) = true →
  _open w = (Return (dbname_of (connection_client (self w))),
             set_self (set_client (_client (self w)) (self (opened w)))
               (opened w)).
Proof.
  destruct w as [d fq c]. destruct d as [v f nm cs ix lg ms bs rs nid].
  destruct c as [cl exs cli cdb cbc crt curs rcs].
  unfold healthy, supported. simpl.
  intros -> [vh Hvh] Hv. apply negb_true_iff in Hv.
  unfold _open, Connection, request, modify_self, get_self.
  unfold mbind, M_bind, bind, mret, M_ret, ret, raise. simpl.
  rewrite Hvh. simpl. rewrite Hv.
  unfold opened, bootstrap_schema, dbname_of. simpl.
  rewrite Hvh. unfold has_collection. simpl.
  match goal with |- context [negb ?b] => destruct b eqn:E end;
    simpl; unfold create_collection, has_collection; simpl; rewrite ?E;
    reflexivity.
Qed.


Lemma open_unsupported w :
  healthy w →
  is_Some (virtual_host (connection_client (self w))) →
  supported (server w) = false →
  ∃ msg, _open w = (Raise (NotImplementedError msg), w).
Proof.
  destruct w as [d fq c]. destruct d as [v f nm cs ix lg ms bs rs nid].
  destruct c as [cl exs cli cdb cbc crt curs rcs].
  unfold healthy, supported. simpl.
  intros -> [vh Hvh] Hv. apply negb_false_iff in Hv.
  unfold _open, Connection, request, modify_self, get_self.
  unfold mbind, M_bind, bind, mret, M_ret, ret, raise. simpl.
  rewrite Hvh. simpl. rewrite Hv. eexists. reflexivity.
Qed.

Lemma client_first_use w :
  healthy w →
  is_Some (virtual_host (connection_client (self w))) →
  supported (server w) = true →
  _client (self w) = None →
  client w = (Return (dbname_of (connection_client (self w))), opened w).
Proof.
  intros Hh Hvh Hv Hc. unfold client. rewrite bind_eq. simpl. rewrite Hc.
  rewrite bind_eq, (open_supported w Hh Hvh Hv). reflexivity.
Qed.

Lemma opened_same_data w : same_data w (opened w).
Proof.
  destruct w as [d fq c]. destruct d, c. unfold same_data, opened. simpl.
  unfold bootstrap_schema. simpl.
  match goal with |- context [has_collection ?n ?x] =>
    destruct (has_collection n x) eqn:E end;
    unfold create_collection; simpl; rewrite ?E; simpl; repeat split.
Qed.

Lemma same_data_refl w : same_data w w.
Proof. unfold same_data. repeat split. Qed.

Lemma ready_same_data w : same_data w (ready w).
Proof.
  unfold ready. destruct (_client (self w)).
  - apply same_data_refl.
  - apply opened_same_data.
Qed.

Lemma client_usable w :
  usable w →
  ∃ h, client w = (Return h, ready w) ∧ _client (self (ready w)) = Some h.
Proof.
  intros [Hh [[h Hc] | [Hvh Hv]]].
  - exists h. unfold ready. rewrite Hc. split; [by apply client_cached | done].
  - unfold ready. destruct (_client (self w)) as [h|] eqn:Hc.
    + exists h. split; [by apply client_cached | done].
    + eexists. split; [by apply client_first_use | reflexivity].
Qed.

Lemma ready_connected w : usable w → connected (ready w).
Proof.
  intros Hu. destruct (client_usable w Hu) as (h & _ & Hc).
  split.
  - unfold healthy. destruct (ready_same_data w) as (_ & -> & _). apply Hu.
  - rewrite Hc. eauto.
Qed.

Lemma connected_usable w : connected w → usable w.
Proof. intros [Hh Hc]. split; [done | by left]. Qed.

Lemma ready_connected_id w : connected w → ready w = w.
Proof. intros [_ [h Hc]]. unfold ready. by rewrite Hc. Qed.

Lemma client_connected w :
  connected w → ∃ h, client w = (Return h, w).
Proof. intros [_ [h Hc]]. exists h. by apply client_cached. Qed.

(** ** Indexes and the schema log *)

Lemma ensure_index_has c k d : has_index c k (snd (ensure_index c k d)) = true.
Proof.
  unfold ensure_index, has_index. simpl.
  apply bool_decide_eq_true. case_bool_decide as H.
  - exact H.
  - apply elem_of_app. right. apply list_elem_of_singleton. reflexivity.
Qed.

Lemma ensure_index_keeps c k c' k' d :
  has_index c k (snd (ensure_index c' k' d)) = true ↔
  has_index c k d = true ∨ (c, k) = (c', k').
Proof.
  unfold ensure_index, has_index. simpl.
  rewrite !bool_decide_eq_true.
  case_bool_decide as H.
  - split; [by left | intros [? | ->]; done].
  - rewrite elem_of_app, list_elem_of_singleton. reflexivity.
Qed.

Lemma create_collection_index c k n sz cp d :
  has_index c k (snd (create_collection n sz cp d)) = has_index c k d.
Proof.
  unfold create_collection. destruct (has_collection n d); reflexivity.
Qed.

Lemma bootstrap_schema_index cl d c k :
  has_index c k (bootstrap_schema cl d) = true ↔
  has_index c k d = true ∨
  (c, k) = ("messages", [("queue", 1); ("_id", 1)]) ∨
  (c, k) = ("messages.broadcast", [("queue", 1)]) ∨
  (c, k) = ("messages.routing", [("queue", 1); ("exchange", 1)]).
Proof.
  unfold bootstrap_schema. cbv zeta.
  rewrite !ensure_index_keeps.
  match goal with |- context [if ?b then _ else _] => destruct b end;
    rewrite ?create_collection_index, ensure_index_keeps; tauto.
Qed.

Lemma bootstrap_schema_log cl d :
  schema_log (bootstrap_schema cl d) =
  (schema_log d ++ bootstrap_requests cl d)%list.
Proof.
  unfold bootstrap_schema, bootstrap_requests. cbv zeta.
  assert (Hc : has_collection "messages.broadcast"
                 (snd (ensure_index "messages" [("queue", 1); ("_id", 1)] d))
               = has_collection "messages.broadcast" d).
  { unfold ensure_index, has_collection. simpl.
    destruct (existsb (String.eqb "messages") (map fst (collections d)));
      [reflexivity|].
    rewrite map_app, existsb_app. simpl.
    replace (String.eqb "messages.broadcast" "messages") with false
      by (vm_compute; reflexivity).
    by rewrite !orb_false_r. }
  rewrite Hc. destruct (has_collection "messages.broadcast" d) eqn:E.
  - simpl. rewrite <- !app_assoc. reflexivity.
  - unfold create_collection. rewrite Hc. simpl.
    rewrite <- !app_assoc. reflexivity.
Qed.

Lemma ensure_index_collection x c k d :
  x ∈ collections d → x ∈ collections (snd (ensure_index c k d)).
Proof.
  unfold ensure_index. simpl. destruct (has_collection c d); [done|].
  intros H. apply elem_of_app. by left.
Qed.

Lemma ensure_index_has_collection n c k d :
  n ≠ c →
  has_collection n (snd (ensure_index c k d)) = has_collection n d.
Proof.
  intros Hne. unfold ensure_index, has_collection. simpl.
  destruct (existsb (String.eqb c) (map fst (collections d))); [reflexivity|].
  rewrite map_app, existsb_app. simpl.
  apply String.eqb_neq in Hne. rewrite Hne. by rewrite !orb_false_r.
Qed.

Lemma bootstrap_schema_creates cl d :
  has_collection "messages.broadcast" d = false →
  ("messages.broadcast", Some (capsize_of cl)) ∈
    collections (bootstrap_schema cl d).
Proof.
  intros Habs. unfold bootstrap_schema. cbv zeta.
  rewrite ensure_index_has_collection, Habs by discriminate.
  do 2 apply ensure_index_collection.
  unfold create_collection.
  rewrite ensure_index_has_collection, Habs by discriminate.
  simpl. apply elem_of_app. right. apply list_elem_of_singleton. reflexivity.
Qed.

(** ** Claims on bootstrap and queue declaration *)

(** C7.  Reading [client] on a channel without a handle: when the version
    the server reports is below 1.3, [NotImplementedError] is raised and
    the world stays as it was (no collection, no index, no schema request,
    no handle).  Otherwise the handle is returned and cached, the index
    [(queue, _id)] on [messages] is there, the schema requests are the
    three [ensure_index] calls with [create_collection] for the capped
    [messages.broadcast] exactly when the collection was absent, with the
    size [capped_queue_size or 100000]; and any world holding a handle
    gets it back from [client] unchanged: the bootstrap does not run
    again. *)
Theorem bootstrap_version_gate_and_once (w : World) :
  healthy w →
  is_Some (virtual_host (connection_client (self w))) →
  _client (self w) = None →
  if supported (server w) then
    ∃ h w',
      client w = (Return h, w') ∧
      _client (self w') = Some h ∧
      has_index "messages" [("queue", 1); ("_id", 1)] (server w') = true ∧
      schema_log (server w') =
        (schema_log (server w) ++
         [EnsureIndex "messages" [("queue", 1); ("_id", 1)]] ++
         (if has_collection "messages.broadcast" (server w) then []
          else [CreateCollection "messages.broadcast"
                  (match capped_queue_size (connection_client (self w)) with
                   | Some n => if n =? 0 then 100000 else n
                   | None => 100000
                   end) true]) ++
         [EnsureIndex "messages.broadcast" [("queue", 1)];
          EnsureIndex "messages.routing" [("queue", 1); ("exchange", 1)]])%list ∧
      (has_collection "messages.broadcast" (server w) = false →
       ("messages.broadcast",
        Some (match capped_queue_size (connection_client (self w)) with
              | Some n => if n =? 0 then 100000 else n
              | None => 100000
              end)) ∈ collections (server w')) ∧
      (∀ u, _client (self u) = Some h → client u = (Return h, u))
  else
    ∃ msg, client w = (Raise (NotImplementedError msg), w).
Proof.
  intros Hh Hvh Hc. destruct (supported (server w)) eqn:Hv.
  - exists (dbname_of (connection_client (self w))), (opened w).
    split; [by apply client_first_use|].
    split; [reflexivity|].
    split; [apply bootstrap_schema_index; tauto|].
    split; [apply bootstrap_schema_log|].
    split; [apply bootstrap_schema_creates|].
    intros u Hu. by apply client_cached.
  - destruct (open_unsupported w Hh Hvh Hv) as [msg Hopen].
    exists msg. unfold client. rewrite bind_eq. simpl. rewrite Hc.
    rewrite bind_eq, Hopen. reflexivity.
Qed.

Lemma bootstrap_version_gate_and_once_witness :
  (∃ h w',
     client fresh_world = (Return h, w') ∧
     _client (self w') = Some h ∧
     has_index "messages" [("queue", 1); ("_id", 1)] (server w') = true) ∧
  (∃ msg, client (mkWorld old_db ∅ fresh_channel) =
          (Raise (NotImplementedError msg), mkWorld old_db ∅ fresh_channel)).
Proof.
  split.
  - destruct (bootstrap_version_gate_and_once fresh_world)
      as (h & w' & H1 & H2 & H3 & _);
      [reflexivity | simpl; eauto | reflexivity |].
    exists h, w'. auto.
  - apply (bootstrap_version_gate_and_once (mkWorld old_db ∅ fresh_channel));
      [reflexivity | simpl; eauto | reflexivity].
Defined.

(** C9 as the code has it.  A successful bootstrap requests and leaves an
    index on [messages.routing] with the keys [queue] then [exchange], and
    an index on [messages.broadcast] with the key [queue]. *)
Theorem bootstrap_indexes (w : World) :
  healthy w →
  is_Some (virtual_host (connection_client (self w))) →
  _client (self w) = None →
  supported (server w) = true →
  ∃ h w',
    client w = (Return h, w') ∧
    has_index "messages.routing" [("queue", 1); ("exchange", 1)] (server w') = true ∧
    has_index "messages.broadcast" [("queue", 1)] (server w') = true ∧
    EnsureIndex "messages.routing" [("queue", 1); ("exchange", 1)]
      ∈ drop (length (schema_log (server w))) (schema_log (server w')) ∧
    EnsureIndex "messages.broadcast" [("queue", 1)]
      ∈ drop (length (schema_log (server w))) (schema_log (server w')).
Proof.
  intros Hh Hvh Hc Hv.
  exists (dbname_of (connection_client (self w))), (opened w).
  split; [by apply client_first_use|].
  split; [apply bootstrap_schema_index; tauto|].
  split; [apply bootstrap_schema_index; tauto|].
  change (server (opened w))
    with (bootstrap_schema (connection_client (self w)) (server w)).
  rewrite bootstrap_schema_log, drop_app_length.
  unfold bootstrap_requests.
  split; rewrite !elem_of_app, !elem_of_cons; tauto.
Qed.

Lemma bootstrap_indexes_witness :
  ∃ h w',
    client fresh_world = (Return h, w') ∧
    has_index "messages.routing" [("queue", 1); ("exchange", 1)] (server w') = true.
Proof.
  destruct (bootstrap_indexes fresh_world) as (h & w' & H1 & H2 & _);
    [reflexivity | simpl; eauto | reflexivity | reflexivity |].
  exists h, w'. auto.
Defined.

(** C9 as stated fails: after the bootstrap of a fresh database there is
    no index on [messages.routing] keyed by [exchange] then [queue], and
    none was requested. *)
Lemma routing_index_exchange_queue_counterexample :
  ∃ h w',
    client fresh_world = (Return h, w') ∧
    has_index "messages.routing" [("exchange", 1); ("queue", 1)] (server w') = false ∧
    EnsureIndex "messages.routing" [("exchange", 1); ("queue", 1)]
      ∉ schema_log (server w').
Proof.
  exists (dbname_of (connection_client (self fresh_world))), (opened fresh_world).
  split.
  { apply client_first_use;
      [reflexivity | simpl; eauto | reflexivity | reflexivity]. }
  split; [vm_compute; reflexivity|].
  change (server (opened fresh_world))
    with (bootstrap_schema (connection_client (self fresh_world))
            (server fresh_world)).
  rewrite bootstrap_schema_log. simpl.
  intros H.
  repeat (apply elem_of_cons in H as [H | H]; [discriminate H|]).
  by apply elem_of_nil in H.
Qed.

(** C10.  [_new_queue] returns without a request to the server and leaves
    the world (server, registry, channel) as it was. *)
Theorem new_queue_noop (queue : string) (w : World) :
  _new_queue queue w = (Return tt, w).
Proof. reflexivity. Qed.

(** ** Lifting from connected to usable worlds *)

Lemma client_bind_ready {A} (k : string → M A) w :
  usable w → (client ≫= k) w = (client ≫= k) (ready w).
Proof.
  intros Hu. destruct (client_usable w Hu) as (h & Hc & Hr).
  rewrite !bind_eq, Hc, (client_cached _ _ Hr). reflexivity.
Qed.

Lemma ready_fanout w : _fanout_queues (ready w) = _fanout_queues w.
Proof. destruct (ready_same_data w) as (_&_&_&_&_&_&_&H&_). exact H. Qed.

Lemma put_ready {Message} `{Json Message} q (m : Message) w :
  usable w → _put q m w = _put q m (ready w).
Proof. intros Hu. unfold _put. by apply client_bind_ready. Qed.

Lemma put_fanout_ready {Message} `{Json Message} e (m : Message) w :
  usable w → _put_fanout e m w = _put_fanout e m (ready w).
Proof. intros Hu. unfold _put_fanout. by apply client_bind_ready. Qed.

Lemma ensure_cursor_ready q w :
  usable w → _ensure_cursor q w = _ensure_cursor q (ready w).
Proof. intros Hu. unfold _ensure_cursor. by apply client_bind_ready. Qed.

Lemma get_ready {Message} `{Json Message} q w :
  usable w → _get (Message:=Message) q w = _get q (ready w).
Proof.
  intros Hu. unfold _get. rewrite !bind_eq. unfold catch.
  rewrite !bind_eq. unfold get_fanout_queues. rewrite ready_fanout.
  destruct (bool_decide (is_Some (_fanout_queues w !! q))).
  - rewrite !bind_eq, (ensure_cursor_ready q w Hu). reflexivity.
  - rewrite (client_bind_ready _ w Hu). reflexivity.
Qed.

Lemma size_ready q w : usable w → _size q w = _size q (ready w).
Proof.
  intros Hu. unfold _size. rewrite !bind_eq.
  unfold get_fanout_queues. rewrite ready_fanout.
  destruct (bool_decide (is_Some (_fanout_queues w !! q))).
  - rewrite !bind_eq, (ensure_cursor_ready q w Hu). reflexivity.
  - by apply client_bind_ready.
Qed.

Lemma purge_ready q w : usable w → _purge q w = _purge q (ready w).
Proof.
  intros Hu. unfold _purge. rewrite !bind_eq, (size_ready q w Hu).
  reflexivity.
Qed.

(** ** Point-to-point queues *)

Lemma find_docs_app q l1 l2 :
  find_docs q (l1 ++ l2) = (find_docs q l1 ++ find_docs q l2)%list.
Proof. unfold find_docs. apply List.filter_app. Qed.

Lemma find_docs_elem q d l : d ∈ find_docs q l → d ∈ l ∧ queue_is q d = true.
Proof.
  unfold find_docs. rewrite !list_elem_of_In, filter_In. done.
Qed.

(** With the documents of the queue in identifier order, the smallest
    identifier is the first one of the queue in natural order. *)
Lemma min_id_doc_sorted q l :
  StronglySorted lt (map doc_id (find_docs q l)) →
  min_id_doc q l = head (find_docs q l).
Proof.
  induction l as [|d l IH]; simpl; [done|].
  destruct (queue_is q d) eqn:Hq; simpl; [|exact IH].
  intros Hs. apply StronglySorted_inv in Hs as [Hs Hall].
  rewrite (IH Hs). destruct (find_docs q l) as [|d' r]; simpl in *; [done|].
  apply Forall_inv in Hall.
  destruct (Nat.ltb_spec (doc_id d') (doc_id d)); [lia | done].
Qed.

Lemma remove_id_elem x i l : x ∈ remove_id i l → x ∈ l.
Proof.
  induction l as [|d l IH]; simpl; [done|].
  destruct (doc_id d =? i)%nat.
  - intros ?. by right.
  - intros [->|?]%elem_of_cons; [left | right; auto].
Qed.

Lemma remove_id_NoDup i l :
  NoDup (map doc_id l) → NoDup (map doc_id (remove_id i l)).
Proof.
  induction l as [|d l IH]; simpl; [done|].
  intros [Hn Hd]%NoDup_cons. destruct (doc_id d =? i)%nat; [done|].
  simpl. apply NoDup_cons. split; [|auto].
  intros (x & Hx & Hin)%list_elem_of_fmap. apply Hn.
  apply list_elem_of_fmap. exists x. split; [done|].
  by apply remove_id_elem in Hin.
Qed.

(** Removing the first document of a queue by its identifier leaves the
    rest of the queue, in order. *)
Lemma remove_id_find q d rest l :
  NoDup (map doc_id l) →
  find_docs q l = d :: rest →
  find_docs q (remove_id (doc_id d) l) = rest.
Proof.
  induction l as [|x l IH]; simpl; [done|].
  intros [Hn Hd]%NoDup_cons Hf.
  destruct (Nat.eqb_spec (doc_id x) (doc_id d)) as [Heq|Hne].
  - destruct (queue_is q x) eqn:Hq.
    + by inversion Hf.
    + exfalso. apply Hn. rewrite Heq. apply list_elem_of_fmap.
      exists d. split; [done|].
      apply (find_docs_elem q). rewrite Hf. by left.
  - simpl. destruct (queue_is q x) eqn:Hq.
    + inversion Hf; subst. done.
    + by apply IH.
Qed.

Lemma sorted_snoc (l : list nat) (n : nat) :
  StronglySorted lt l → Forall (λ x, (x < n)%nat) l →
  StronglySorted lt (l ++ [n]).
Proof.
  induction 1 as [|a l Hs IH Ha]; simpl; intros Hall.
  - repeat constructor.
  - apply Forall_cons in Hall as [Han Hall].
    constructor; [auto|].
    apply Forall_app. split; [done | by constructor].
Qed.

Lemma put_connected {Message} `{Json Message} q (m : Message) w :
  connected w →
  _put q m w =
  (Return tt,
   set_server (snd (messages_insert (dumps m) q (server w))) w).
Proof.
  intros Hc. destruct (client_connected w Hc) as [h Hh].
  unfold _put. rewrite bind_eq, Hh.
  rewrite write_healthy by apply Hc. reflexivity.
Qed.

Lemma put_p2p_inv {Message} `{Json Message} q (m : Message) w :
  p2p_inv q w →
  ∃ w', _put q m w = (Return tt, w') ∧ p2p_inv q w' ∧
        pending q w' = (pending q w ++ [dumps m])%list.
Proof.
  intros (Hc & Hf & [Hnd Hfr] & Hnm & Hs).
  eexists. split; [by apply put_connected|].
  destruct w as [d fq c]. destruct d.
  unfold p2p_inv, pending, ids_wf, connected, healthy, no_match_marked in *.
  simpl in *.
  assert (Hq : queue_is q (mkDoc next_id0 q (dumps m)) = true)
    by apply String.eqb_refl.
  rewrite find_docs_app. simpl. rewrite Hq, !map_app. simpl.
  repeat split; try tauto.
  - apply NoDup_app. split; [done|].
    split; [|apply NoDup_singleton].
    intros x (y & -> & Hy)%list_elem_of_fmap Hx%list_elem_of_singleton.
    rewrite Forall_forall in Hfr. apply Hfr in Hy. lia.
  - apply Forall_app. split; [|repeat constructor; simpl; lia].
    eapply Forall_impl; [exact Hfr|]. simpl. intros; lia.
  - apply sorted_snoc; [done|].
    apply Forall_forall. intros x (y & -> & Hy)%list_elem_of_fmap.
    apply find_docs_elem in Hy as [Hy _].
    rewrite Forall_forall in Hfr. by apply Hfr.
Qed.

(** [_get] on a queue that is not a fanout queue, in terms of the reply
    to findandmodify. *)
Lemma get_p2p_connected {Message} `{Json Message} q w :
  connected w →
  _fanout_queues w !! q = None →
  _get (Message:=Message) q w =
  match findandmodify q (server w) with
  | (Return (Some d), s) => (Return (loads (doc_payload d)), set_server s w)
  | (Return None, s) => (Raise Empty, set_server s w)
  | (Raise (OperationFailure args0), s) =>
      if contains NO_MATCH args0 then (Raise Empty, set_server s w)
      else (Raise (OperationFailure args0), set_server s w)
  | (Raise StopIteration, s) => (Raise Empty, set_server s w)
  | (Raise e, s) => (Raise e, set_server s w)
  end.
Proof.
  intros Hc Hf. destruct (client_connected w Hc) as [h Hh].
  unfold _get, catch. rewrite !bind_eq. unfold get_fanout_queues.
  rewrite Hf. simpl. rewrite !bind_eq, Hh. rewrite !bind_eq.
  rewrite request_healthy by apply Hc.
  destruct (findandmodify q (server w)) as [[[d|]|e] s]; simpl; try done.
  destruct e; simpl; try done.
  destruct (contains NO_MATCH args0); done.
Qed.

Lemma get_p2p_some {Message} `{Json Message} q w d rest :
  p2p_inv q w →
  find_docs q (coll_messages (server w)) = d :: rest →
  ∃ w', _get (Message:=Message) q w = (Return (loads (doc_payload d)), w') ∧
        p2p_inv q w' ∧
        find_docs q (coll_messages (server w')) = rest.
Proof.
  intros (Hc & Hf & [Hnd Hfr] & Hnm & Hs) Hfind.
  rewrite get_p2p_connected by done.
  unfold findandmodify. rewrite (min_id_doc_sorted q _ Hs), Hfind. simpl.
  eexists. split; [reflexivity|].
  destruct w as [s fq c]. destruct s.
  unfold p2p_inv, ids_wf, connected, healthy, no_match_marked in *.
  simpl in *. rewrite (remove_id_find q d rest) by done.
  repeat split; try tauto.
  - by apply remove_id_NoDup.
  - apply Forall_forall. intros x Hx. apply remove_id_elem in Hx.
    rewrite Forall_forall in Hfr. by apply Hfr.
  - rewrite Hfind in Hs. simpl in Hs.
    apply StronglySorted_inv in Hs as [Hs _]. exact Hs.
Qed.

Lemma get_p2p_empty {Message} `{Json Message} q w :
  p2p_inv q w →
  find_docs q (coll_messages (server w)) = [] →
  _get (Message:=Message) q w = (Raise Empty, w).
Proof.
  intros (Hc & Hf & _ & Hnm & Hs) Hfind.
  rewrite get_p2p_connected by done.
  unfold findandmodify. rewrite (min_id_doc_sorted q _ Hs), Hfind. simpl.
  unfold no_match_marked in Hnm. destruct w as [s fq c]. destruct s.
  simpl in *. destruct fam_no_match0; [rewrite Hnm|]; reflexivity.
Qed.

(** Dequeuing as many messages as are waiting returns their payloads,
    oldest first, and leaves the queue empty. *)
Lemma get_n_pending {Message} `{Json Message} q :
  ∀ w, p2p_inv q w →
  ∃ w', get_n (Message:=Message) q (length (pending q w)) w =
          (Return (map loads (pending q w)), w') ∧
        p2p_inv q w' ∧ pending q w' = [].
Proof.
  intros w. unfold pending.
  remember (find_docs q (coll_messages (server w))) as l eqn:El.
  revert w El. induction l as [|d l IH]; intros w El Hinv; simpl.
  - exists w. by rewrite <- El.
  - destruct (get_p2p_some (Message:=Message) q w d l Hinv) as (w1 & Hg & Hinv1 & Hf1);
      [done|].
    destruct (IH w1 (eq_sym Hf1) Hinv1) as (w2 & Hn & Hinv2 & Hp2).
    exists w2. rewrite bind_eq, Hg, bind_eq, Hn. done.
Qed.

Lemma put_all_p2p {Message} `{Json Message} q (ms : list Message) :
  ∀ w, p2p_inv q w →
  ∃ w', put_all q ms w = (Return tt, w') ∧ p2p_inv q w' ∧
        pending q w' = (pending q w ++ map dumps ms)%list.
Proof.
  induction ms as [|m ms IH]; intros w Hinv; simpl.
  - exists w. by rewrite app_nil_r.
  - destruct (put_p2p_inv q m w Hinv) as (w1 & Hp & Hinv1 & Hpend1).
    destruct (IH w1 Hinv1) as (w2 & Hps & Hinv2 & Hpend2).
    exists w2. rewrite bind_eq, Hp. split; [done|]. split; [done|].
    by rewrite Hpend2, Hpend1, <- app_assoc.
Qed.

Lemma put_all_ready {Message} `{Json Message} q (m : Message) ms w :
  usable w → put_all q (m :: ms) w = put_all q (m :: ms) (ready w).
Proof.
  intros Hu. simpl. rewrite !bind_eq, (put_ready q m w Hu). reflexivity.
Qed.

Lemma p2p_inv_ready q w :
  usable w →
  _fanout_queues w !! q = None →
  ids_wf (server w) →
  no_match_marked (server w) →
  pending q w = [] →
  p2p_inv q (ready w) ∧ pending q (ready w) = [].
Proof.
  intros Hu Hf Hwf Hnm Hp.
  destruct (ready_same_data w) as (_ & _ & Em & Ems & _ & _ & Eid & Efq & _).
  unfold p2p_inv, ids_wf, no_match_marked, pending in *.
  rewrite Em, Ems, Eid, Efq.
  split; [|done]. split; [by apply ready_connected|].
  repeat split; try tauto.
  apply map_eq_nil in Hp. rewrite Hp. constructor.
Qed.

Global Instance string_json_round_trip : JsonRoundTrip string.
Proof. intros m. reflexivity. Qed.

(** C1.  In a queue [Q] that is not a fanout queue and holds no document,
    enqueue [m1..mn]; then [n] dequeues return [m1..mn] in that order and
    the next dequeue raises [Empty]. *)
Theorem p2p_fifo {Message} `{JsonRoundTrip Message} (Q : string)
    (ms : list Message) (w : World) :
  usable w →
  _fanout_queues w !! Q = None →
  ids_wf (server w) →
  no_match_marked (server w) →
  pending Q w = [] →
  ∃ w1 w2 w3,
    put_all Q ms w = (Return tt, w1) ∧
    get_n Q (length ms) w1 = (Return ms, w2) ∧
    _get (Message:=Message) Q w2 = (Raise Empty, w3).
Proof.
  intros Hu Hf Hwf Hnm Hp.
  destruct (p2p_inv_ready Q w Hu Hf Hwf Hnm Hp) as [Hinv Hp0].
  destruct ms as [|m ms].
  - exists w, w, (ready w). simpl. repeat split.
    rewrite get_ready by done. apply get_p2p_empty; [done|].
    unfold pending in Hp0. by apply map_eq_nil in Hp0.
  - rewrite put_all_ready by done.
    destruct (put_all_p2p Q (m :: ms) (ready w) Hinv) as (w1 & Hput & Hinv1 & Hp1).
    destruct (get_n_pending (Message:=Message) Q w1 Hinv1) as (w2 & Hget & Hinv2 & Hp2).
    exists w1, w2, w2. split; [done|].
    rewrite Hp1, Hp0 in Hget.
    change ([] ++ map dumps (m :: ms))%list with (map dumps (m :: ms)) in Hget.
    rewrite length_map, map_map in Hget.
    rewrite (map_ext _ id) in Hget by (intros x; apply loads_dumps).
    rewrite map_id in Hget. split; [done|].
    apply get_p2p_empty; [done|].
    unfold pending in Hp2. by apply map_eq_nil in Hp2.
Qed.

Lemma p2p_fifo_witness :
  ∃ w1 w2 w3,
    put_all "orders" ["A"; "B"] fresh_world = (Return tt, w1) ∧
    get_n "orders" 2 w1 = (Return ["A"; "B"], w2) ∧
    _get (Message:=string) "orders" w2 = (Raise Empty, w3).
Proof.
  apply (p2p_fifo "orders" ["A"; "B"] fresh_world).
  - split; [reflexivity|]. right. split; [simpl; eauto | reflexivity].
  - reflexivity.
  - split; simpl; constructor.
  - exact I.
  - reflexivity.
Defined.

(** ** Fanout queues *)

Lemma ensure_cursor_present q w e cur :
  is_Some (_client (self w)) →
  _fanout_queues w !! q = Some e →
  _queue_cursors (self w) !! q = Some cur →
  _ensure_cursor q w = (Return tt, w).
Proof.
  intros [h Hh] Hf Hcur. unfold _ensure_cursor.
  rewrite bind_eq, (client_cached w h Hh), bind_eq. unfold get_fanout_queues.
  rewrite Hf, bind_eq. unfold get_self. rewrite Hcur. reflexivity.
Qed.

Lemma next_healthy q w cur :
  healthy w →
  _queue_cursors (self w) !! q = Some cur →
  c_killed cur = false →
  next q w =
  let docs := match_spec (c_spec cur) (coll_broadcast (server w)) in
  let w' := set_self (advance q (snd (Cursor_next docs cur)) (self w)) w in
  match fst (Cursor_next docs cur) with
  | Some d => (Return d, w')
  | None => (Raise StopIteration, w')
  end.
Proof.
  intros Hh Hcur Hk. unfold next, cursor_of.
  rewrite !bind_eq. unfold get_self. rewrite Hcur. unfold mret, M_ret, ret.
  rewrite Hk, bind_eq, request_healthy by done. simpl.
  destruct (Cursor_next _ cur) as [[d|] cur'] eqn:E; simpl.
  - rewrite bind_eq. unfold store_cursor, modify_self. simpl.
    by destruct w as [[] ? ?].
  - rewrite bind_eq. unfold store_cursor, modify_self. simpl.
    by destruct w as [[] ? ?].
Qed.

(** [_get] on a fanout queue that has its cursor. *)
Lemma get_fanout_connected {Message} `{Json Message} q w e cur :
  connected w →
  _fanout_queues w !! q = Some e →
  _queue_cursors (self w) !! q = Some cur →
  c_killed cur = false →
  _get (Message:=Message) q w =
  match fst (Cursor_next (feed cur w) cur) with
  | Some d =>
      match _queue_readcounts (self w) !! q with
      | Some rc =>
          (Return (loads (doc_payload d)),
           set_self (delivered q (snd (Cursor_next (feed cur w) cur)) rc (self w)) w)
      | None =>
          (Raise (KeyError q),
           set_self (advance q (snd (Cursor_next (feed cur w) cur)) (self w)) w)
      end
  | None =>
      (Raise Empty,
       set_self (advance q (snd (Cursor_next (feed cur w) cur)) (self w)) w)
  end.
Proof.
  intros [Hh Hc] Hf Hcur Hk.
  unfold _get, catch. rewrite !bind_eq. unfold get_fanout_queues.
  rewrite Hf. simpl. rewrite !bind_eq.
  rewrite (ensure_cursor_present q w e cur) by done.
  rewrite bind_eq, (next_healthy q w cur) by done. unfold feed. simpl.
  destruct (Cursor_next _ cur) as [[d|] cur'] eqn:E; simpl; [|done].
  rewrite bind_eq. unfold incr_readcount, get_self. rewrite bind_eq. simpl.
  destruct (_queue_readcounts (self w) !! q) as [rc|] eqn:Hrc; simpl;
    by destruct w as [? ? []].
Qed.

(** ** Empty results and store failures in [_get] *)

Lemma min_id_doc_none q l : find_docs q l = [] → min_id_doc q l = None.
Proof.
  induction l as [|d l IH]; simpl; [done|].
  destruct (queue_is q d); [done | exact IH].
Qed.

Lemma open_fault w msg :
  fault (server w) = Some msg →
  is_Some (virtual_host (connection_client (self w))) →
  _open w = (Raise (OperationFailure msg), w).
Proof.
  intros Hf [vh Hvh]. unfold _open. rewrite bind_eq. unfold get_self.
  rewrite Hvh. rewrite !bind_eq. unfold mret, M_ret, ret, Connection.
  rewrite bind_eq. unfold mret, M_ret, ret.
  rewrite bind_eq. by rewrite (request_fault _ w msg Hf).
Qed.

(** With the server failing, [client] either holds its handle or fails
    with the server's failure; the world stays as it is. *)
Lemma client_fault w msg :
  fault (server w) = Some msg →
  is_Some (_client (self w)) ∨
  is_Some (virtual_host (connection_client (self w))) →
  (∃ h, client w = (Return h, w)) ∨
  client w = (Raise (OperationFailure msg), w).
Proof.
  intros Hf Hcfg. destruct (_client (self w)) as [h|] eqn:Hc.
  - left. exists h. by apply client_cached.
  - right. destruct Hcfg as [[? ?]|Hvh]; [done|].
    unfold client. rewrite bind_eq. unfold get_self. rewrite Hc.
    by rewrite bind_eq, (open_fault w msg).
Qed.

Lemma get_fault {Message} `{Json Message} q w msg :
  fault (server w) = Some msg →
  contains NO_MATCH msg = false →
  is_Some (_client (self w)) ∨
  is_Some (virtual_host (connection_client (self w))) →
  (∀ cur, _queue_cursors (self w) !! q = Some cur → c_killed cur = false) →
  _get (Message:=Message) q w = (Raise (OperationFailure msg), w).
Proof.
  intros Hf Hm Hcfg Hk.
  unfold _get, catch. rewrite !bind_eq. unfold get_fanout_queues.
  destruct (_fanout_queues w !! q) as [e|] eqn:Hfq; simpl.
  - rewrite !bind_eq. unfold _ensure_cursor. rewrite bind_eq.
    destruct (client_fault w msg Hf Hcfg) as [[h ->] | ->];
      [|by rewrite Hm].
    rewrite bind_eq. unfold get_fanout_queues. rewrite Hfq, bind_eq.
    unfold get_self.
    destruct (_queue_cursors (self w) !! q) as [cur|] eqn:Hcur.
    + unfold mret, M_ret, ret. rewrite bind_eq. unfold next, cursor_of.
      rewrite !bind_eq. unfold get_self. rewrite Hcur.
      unfold mret, M_ret, ret. rewrite (Hk cur eq_refl), bind_eq.
      rewrite (request_fault _ w msg Hf). by rewrite Hm.
    + unfold Cursor_count. rewrite !bind_eq.
      rewrite (request_fault _ w msg Hf). by rewrite Hm.
  - rewrite !bind_eq.
    destruct (client_fault w msg Hf Hcfg) as [[h ->] | ->];
      [|by rewrite Hm].
    rewrite bind_eq, (request_fault _ w msg Hf). by rewrite Hm.
Qed.

(** C6.  With a healthy server, [_get] raises [Empty] on a point-to-point
    queue without documents, whether findandmodify answers "nothing
    matched" with a null value or with an operation failure carrying
    'No matching object found', and on a fanout queue whose cursor is
    exhausted.  When the server fails an operation with any other
    message, [_get] raises that very [OperationFailure]. *)
Theorem get_empty_or_failure {Message} `{Json Message} (q : string) (w : World) :
  (usable w →
   _fanout_queues w !! q = None →
   find_docs q (coll_messages (server w)) = [] →
   no_match_marked (server w) →
   ∃ w', _get (Message:=Message) q w = (Raise Empty, w')) ∧
  (∀ e cur,
     usable w →
     _fanout_queues w !! q = Some e →
     _queue_cursors (self w) !! q = Some cur →
     c_killed cur = false →
     feed cur w !! (c_skip cur + c_retrieved cur)%nat = None →
     ∃ w', _get (Message:=Message) q w = (Raise Empty, w')) ∧
  (∀ msg,
     fault (server w) = Some msg →
     contains NO_MATCH msg = false →
     is_Some (_client (self w)) ∨
     is_Some (virtual_host (connection_client (self w))) →
     (∀ cur, _queue_cursors (self w) !! q = Some cur → c_killed cur = false) →
     _get (Message:=Message) q w = (Raise (OperationFailure msg), w)).
Proof.
  split; [|split].
  - intros Hu Hfq Hnone Hnm. rewrite get_ready by done.
    destruct (ready_same_data w) as (_ & _ & Em & Ems & _ & _ & _ & Efq & _).
    rewrite get_p2p_connected;
      [| by apply ready_connected | by rewrite Efq].
    unfold findandmodify. rewrite Ems, (min_id_doc_none _ _ Hnone), Em.
    unfold no_match_marked in Hnm.
    destruct (fam_no_match (server w)); [rewrite Hnm|]; eauto.
  - intros e cur Hu Hfq Hcur Hk Hex. rewrite get_ready by done.
    destruct (ready_same_data w)
      as (_ & _ & _ & _ & Eb & _ & _ & Efq & _ & _ & Ecur & _).
    rewrite (get_fanout_connected q (ready w) e cur);
      [| by apply ready_connected | by rewrite Efq | by rewrite Ecur | done].
    unfold feed in *. rewrite Eb. unfold Cursor_next. rewrite Hex. simpl.
    eauto.
  - intros msg. apply get_fault.
Qed.

Lemma get_empty_or_failure_witness :
  (∃ w', _get (Message:=string) "orders" fresh_world = (Raise Empty, w')) ∧
  (∃ w', _get (Message:=string) "orders" (mkWorld legacy_db ∅ fresh_channel)
         = (Raise Empty, w')) ∧
  (∃ w', _get (Message:=string) "q1" bound_world = (Raise Empty, w')) ∧
  _get (Message:=string) "orders" (mkWorld failing_db ∅ fresh_channel)
  = (Raise (OperationFailure "not master"), mkWorld failing_db ∅ fresh_channel).
Proof.
  assert (Hfresh : usable fresh_world).
  { split; [reflexivity|]. right. split; [simpl; eauto | reflexivity]. }
  split; [|split; [|split]].
  - apply (get_empty_or_failure (Message:=string) "orders" fresh_world);
      [exact Hfresh | reflexivity | reflexivity | exact I].
  - apply (get_empty_or_failure (Message:=string) "orders"
             (mkWorld legacy_db ∅ fresh_channel)).
    + split; [reflexivity|]. right. split; [simpl; eauto | reflexivity].
    + reflexivity.
    + reflexivity.
    + reflexivity.
  - apply (proj1 (proj2 (get_empty_or_failure (Message:=string) "q1" bound_world))
             "logs" (mkCursor None 0 0 false false)).
    + split; [reflexivity|]. left. vm_compute. eauto.
    + vm_compute. reflexivity.
    + vm_compute. reflexivity.
    + reflexivity.
    + vm_compute. reflexivity.
  - apply (get_empty_or_failure (Message:=string) "orders"
             (mkWorld failing_db ∅ fresh_channel)).
    + reflexivity.
    + reflexivity.
    + right. simpl. eauto.
    + intros cur Hcur. simpl in Hcur. by rewrite lookup_empty in Hcur.
Defined.

(** ** What a method on one queue leaves alone *)

Section Preserves.
Context (R : World → World → Prop) `{!PreOrder R}.

Lemma preserves_ret {A} (a : A) : preserves R (mret a).
Proof. intros w. simpl. reflexivity. Qed.

Lemma preserves_raise {A} e : preserves R (raise (A:=A) e).
Proof. intros w. simpl. reflexivity. Qed.

Lemma preserves_bind {A B} (m : M A) (k : A → M B) :
  preserves R m → (∀ a, preserves R (k a)) → preserves R (m ≫= k).
Proof.
  intros Hm Hk w. rewrite bind_eq. specialize (Hm w).
  destruct (m w) as [[a|e] w1]; simpl in *; [|done].
  etransitivity; [exact Hm | apply Hk].
Qed.

Lemma preserves_catch {A} (m : M A) (h : exn → M A) :
  preserves R m → (∀ e, preserves R (h e)) → preserves R (catch m h).
Proof.
  intros Hm Hh w. unfold catch. specialize (Hm w).
  destruct (m w) as [[a|e] w1]; simpl in *; [done|].
  etransitivity; [exact Hm | apply Hh].
Qed.

Lemma preserves_get_self : preserves R get_self.
Proof. intros w. simpl. reflexivity. Qed.

Lemma preserves_get_fanout_queues : preserves R get_fanout_queues.
Proof. intros w. simpl. reflexivity. Qed.
End Preserves.

Global Instance kept_preorder q : PreOrder (kept q).
Proof.
  split.
  - intros w. unfold kept. tauto.
  - intros w1 w2 w3 (A1 & A2 & A3 & A4 & A5 & A6) (B1 & B2 & B3 & B4 & B5 & B6).
    unfold kept. rewrite B1, B2, B3, B5, B6. repeat split; try done.
    intros Hs. rewrite B4; [auto|]. rewrite A4; done.
Qed.

Lemma kept_request {A} q (f : Database → result A * Database) :
  off_broadcast f → preserves (kept q) (request f).
Proof.
  intros Hf w. unfold request. destruct (fault (server w)) eqn:E; simpl.
  - reflexivity.
  - destruct (Hf (server w)) as [H1 H2].
    destruct (f (server w)) as [r d]. simpl in *.
    unfold kept. simpl. tauto.
Qed.

Lemma kept_modify_self q (f : Channel → Channel) :
  (∀ c, (is_Some (_client c) → _client (f c) = _client c) ∧
        _queue_cursors (f c) !! q = _queue_cursors c !! q ∧
        _queue_readcounts (f c) !! q = _queue_readcounts c !! q) →
  preserves (kept q) (modify_self f).
Proof.
  intros Hf w. destruct (Hf (self w)) as (H1 & H2 & H3).
  unfold kept. simpl. tauto.
Qed.

Lemma off_broadcast_ensure_index c k : off_broadcast (ensure_index c k).
Proof. intros d. split; reflexivity. Qed.

Lemma off_broadcast_create_collection n sz cp :
  off_broadcast (create_collection n sz cp).
Proof.
  intros d. unfold create_collection.
  destruct (has_collection n d); split; reflexivity.
Qed.

Lemma off_broadcast_findandmodify q : off_broadcast (findandmodify q).
Proof.
  intros d. unfold findandmodify.
  destruct (min_id_doc q (coll_messages d)); [split; reflexivity|].
  destruct (fam_no_match d); split; reflexivity.
Qed.

Ltac kbind :=
  match goal with
  | |- preserves ?R (_ ≫= _) => apply (preserves_bind R); [| intros ?]
  end.
Ltac kdone :=
  match goal with
  | |- preserves ?R (mret _) => apply (preserves_ret R)
  | |- preserves ?R (raise _) => apply (preserves_raise R)
  | |- preserves ?R get_self => apply (preserves_get_self R)
  | |- preserves ?R get_fanout_queues => apply (preserves_get_fanout_queues R)
  | |- preserves (kept _) (request _) =>
      apply kept_request;
      first [ apply off_broadcast_ensure_index
            | apply off_broadcast_create_collection
            | apply off_broadcast_findandmodify
            | done ]
  | |- preserves (kept _) (modify_self _) => by apply kept_modify_self
  end.

Lemma kept_open q : preserves (kept q) _open.
Proof.
  unfold _open. kbind; [kdone|]. kbind.
  { destruct (virtual_host _); kdone. }
  unfold Connection. kbind; [kdone|]. kbind; [kdone|].
  destruct (tuple_lt _ _); [kdone|].
  kbind; [kdone|]. kbind; [kdone|]. kbind; [kdone|]. kbind.
  { destruct (negb _); kdone. }
  kbind; [kdone|]. kbind; [kdone|]. kbind; [kdone|]. kbind; [kdone|].
  kdone.
Qed.

Lemma kept_client q : preserves (kept q) client.
Proof.
  intros w. unfold client. rewrite bind_eq. unfold get_self.
  destruct (_client (self w)) eqn:E; [reflexivity|].
  rewrite bind_eq. pose proof (kept_open q w) as Ho.
  destruct (_open w) as [[h|e] w1]; simpl in *; [|exact Ho].
  destruct Ho as (H1 & H2 & H3 & H4 & H5 & H6).
  unfold kept. simpl. rewrite E. repeat split; try done.
Qed.

Lemma kept_store_cursor q q1 cur :
  q1 ≠ q → preserves (kept q) (store_cursor q1 cur).
Proof.
  intros Hne. unfold store_cursor. apply kept_modify_self. intros c. simpl.
  rewrite lookup_insert_ne by done. done.
Qed.

Lemma kept_ensure_cursor q q1 :
  q1 ≠ q → preserves (kept q) (_ensure_cursor q1).
Proof.
  intros Hne. unfold _ensure_cursor.
  kbind; [apply kept_client|]. kbind; [kdone|].
  destruct (_ !! q1); [|kdone]. kbind; [kdone|].
  destruct (_ !! q1); [kdone|]. unfold Cursor_count.
  kbind; [kbind; kdone|].
  destruct (Cursor_skip _ _); [|kdone].
  kbind; [by apply kept_store_cursor|].
  apply kept_modify_self. intros c. simpl.
  rewrite lookup_insert_ne by done. done.
Qed.

Lemma kept_next q q1 : q1 ≠ q → preserves (kept q) (next q1).
Proof.
  intros Hne. unfold next, cursor_of.
  kbind; [kbind; [kdone|]; destruct (_ !! q1); kdone|].
  destruct (c_killed _); [kdone|]. kbind; [kdone|].
  destruct (Cursor_next _ _) as [r cur']. kbind; [by apply kept_store_cursor|].
  destruct r; kdone.
Qed.

Lemma kept_incr_readcount q q1 :
  q1 ≠ q → preserves (kept q) (incr_readcount q1).
Proof.
  intros Hne. unfold incr_readcount. kbind; [kdone|].
  destruct (_ !! q1); [|kdone].
  apply kept_modify_self. intros c. simpl.
  rewrite lookup_insert_ne by done. done.
Qed.

(** A dequeue on [q1] keeps the cursor, the read count and the feed of
    every other queue [q]. *)
Lemma kept_get {Message} `{Json Message} q q1 :
  q1 ≠ q → preserves (kept q) (_get (Message:=Message) q1).
Proof.
  intros Hne. unfold _get. kbind.
  - apply (preserves_catch (kept q)).
    + kbind; [kdone|]. destruct (bool_decide _).
      * kbind; [by apply kept_ensure_cursor|].
        kbind; [by apply kept_next|].
        kbind; [by apply kept_incr_readcount|]. kdone.
      * kbind; [apply kept_client|]. kbind; kdone.
    + intros [] ; try kdone. destruct (contains _ _); kdone.
  - destruct a as [m|[d|]]; kdone.
Qed.

(** ** Binding and reading a fanout queue *)

Lemma ensure_cursor_fresh q E w :
  connected w →
  _fanout_queues w !! q = Some E →
  _queue_cursors (self w) !! q = None →
  _ensure_cursor q w =
  (Return tt,
   set_self
     (set_queue_readcounts
        (<[q := Z.of_nat (broadcasts w)]> (_queue_readcounts (self w)))
        (advance q (mkCursor None (broadcasts w) 0 false false) (self w))) w).
Proof.
  intros [Hh [h Hc]] Hf Hcur. unfold _ensure_cursor.
  rewrite bind_eq, (client_cached w h Hc), bind_eq. unfold get_fanout_queues.
  rewrite Hf, bind_eq. unfold get_self. rewrite Hcur.
  unfold Cursor_count. rewrite !bind_eq, request_healthy by done.
  simpl. rewrite bind_eq. unfold store_cursor, modify_self, broadcasts. simpl.
  by destruct w as [[] ? []].
Qed.

Lemma put_fanout_connected {Message} `{Json Message} E (m : Message) w :
  connected w →
  _put_fanout E m w =
  (Return tt, set_server (snd (broadcast_insert (dumps m) E (server w))) w).
Proof.
  intros Hc. destruct (client_connected w Hc) as [h Hh].
  unfold _put_fanout. rewrite bind_eq, Hh.
  rewrite write_healthy by apply Hc. reflexivity.
Qed.

(** A publish, to whatever exchange, lands in the feed of the cursor of
    every fanout queue in working order. *)
Lemma publish_fan_inv {Message} `{Json Message} q E E' (m : Message) unread w :
  fan_inv q E unread w →
  ∃ w', _put_fanout E' m w = (Return tt, w') ∧
        fan_inv q E (unread ++ [dumps m]) w'.
Proof.
  intros (Hc & Hf & cur & rc & Hcur & Hrc & Hq & Hk & Hle & Hun).
  eexists. split; [by apply put_fanout_connected|].
  destruct w as [d fq c]. destruct d.
  unfold fan_inv, connected, healthy, feed in *. rewrite Hq in *.
  simpl in *. repeat split; try tauto.
  exists cur, rc. rewrite Hq. simpl.
  repeat split; try done.
  - rewrite length_app. lia.
  - rewrite drop_app_le by done. rewrite map_app, Hun. reflexivity.
Qed.

Lemma publish_all_fan_inv {Message} `{Json Message} q E E' (ms : list Message) :
  ∀ unread w,
    fan_inv q E unread w →
    ∃ w', publish_all E' ms w = (Return tt, w') ∧
          fan_inv q E (unread ++ map dumps ms) w'.
Proof.
  induction ms as [|m ms IH]; intros unread w Hinv; simpl.
  - exists w. by rewrite app_nil_r.
  - destruct (publish_fan_inv q E E' m unread w Hinv) as (w1 & Hp & Hinv1).
    destruct (IH _ w1 Hinv1) as (w2 & Hps & Hinv2).
    exists w2. rewrite bind_eq, Hp. split; [done|].
    by rewrite <- app_assoc in Hinv2.
Qed.

Lemma get_fan_inv_some {Message} `{Json Message} q E p rest w :
  fan_inv q E (p :: rest) w →
  ∃ w', _get (Message:=Message) q w = (Return (loads p), w') ∧
        fan_inv q E rest w'.
Proof.
  intros (Hc & Hf & cur & rc & Hcur & Hrc & Hq & Hk & Hle & Hun).
  rewrite (get_fanout_connected q w E cur) by done.
  destruct (drop (c_skip cur + c_retrieved cur) (feed cur w)) as [|d l] eqn:Hd;
    [done|].
  assert (Hlk : feed cur w !! (c_skip cur + c_retrieved cur)%nat = Some d).
  { rewrite <- (Nat.add_0_r (c_skip cur + c_retrieved cur)).
    rewrite <- lookup_drop, Hd. reflexivity. }
  unfold Cursor_next. rewrite Hlk. simpl. rewrite Hrc.
  simpl in Hun. inversion Hun; subst p rest.
  eexists. split; [reflexivity|].
  destruct Hc as [Hh Hcl].
  unfold fan_inv, connected, healthy, feed in *.
  destruct w as [s fq c]. destruct c. simpl in *.
  repeat split; try tauto.
  eexists _, _. rewrite !lookup_insert_eq. repeat split; simpl; try done.
  - apply lookup_lt_Some in Hlk. lia.
  - replace (c_skip cur + S (c_retrieved cur))%nat
      with (c_skip cur + c_retrieved cur + 1)%nat by lia.
    rewrite <- drop_drop, Hd. reflexivity.
Qed.

Lemma get_fan_inv_none {Message} `{Json Message} q E w :
  fan_inv q E [] w →
  ∃ w', _get (Message:=Message) q w = (Raise Empty, w') ∧ fan_inv q E [] w'.
Proof.
  intros (Hc & Hf & cur & rc & Hcur & Hrc & Hq & Hk & Hle & Hun).
  rewrite (get_fanout_connected q w E cur) by done.
  apply map_eq_nil in Hun.
  assert (Hlk : feed cur w !! (c_skip cur + c_retrieved cur)%nat = None).
  { rewrite <- (Nat.add_0_r (c_skip cur + c_retrieved cur)).
    rewrite <- lookup_drop, Hun. reflexivity. }
  unfold Cursor_next. rewrite Hlk. simpl.
  eexists. split; [reflexivity|].
  destruct Hc as [Hh Hcl].
  unfold fan_inv, connected, healthy, feed in *.
  destruct w as [s fq c]. destruct c. simpl in *.
  repeat split; try tauto.
  eexists _, _. rewrite !lookup_insert_eq. repeat split; simpl; try done.
  by rewrite Hun.
Qed.

Lemma get_n_fan_inv {Message} `{Json Message} q E (unread : list string) :
  ∀ w, fan_inv q E unread w →
  ∃ w', get_n (Message:=Message) q (length unread) w =
          (Return (map loads unread), w') ∧
        fan_inv q E [] w'.
Proof.
  induction unread as [|p rest IH]; intros w Hinv; simpl.
  - by exists w.
  - destruct (get_fan_inv_some (Message:=Message) q E p rest w Hinv)
      as (w1 & Hg & Hinv1).
    destruct (IH w1 Hinv1) as (w2 & Hn & Hinv2).
    exists w2. by rewrite bind_eq, Hg, bind_eq, Hn.
Qed.

Lemma typeof_ready w E : typeof (self (ready w)) E = typeof (self w) E.
Proof.
  destruct (ready_same_data w) as (_&_&_&_&_&_&_&_&_&Hex&_).
  unfold typeof. by rewrite Hex.
Qed.

Lemma ready_set_fanout_queues f w :
  ready (set_fanout_queues f w) = set_fanout_queues f (ready w).
Proof.
  unfold ready. simpl. destruct (_client (self w)); reflexivity.
Qed.

Lemma usable_set_fanout_queues f w :
  usable w → usable (set_fanout_queues f w).
Proof. intros Hu. exact Hu. Qed.

Lemma queue_bind_ready E rk p q w :
  usable w → _queue_bind E rk p q w = _queue_bind E rk p q (ready w).
Proof.
  intros Hu. unfold _queue_bind. rewrite !bind_eq. unfold get_self.
  rewrite typeof_ready.
  destruct (String.eqb (typeof (self w) E) "fanout").
  - rewrite !bind_eq. unfold modify_fanout_queues.
    rewrite (ensure_cursor_ready q (set_fanout_queues _ w))
      by by apply usable_set_fanout_queues.
    rewrite ready_set_fanout_queues, ready_fanout. reflexivity.
  - unfold mret, M_ret, ret.
    apply (client_bind_ready (λ _, write _) w Hu).
Qed.

(** A first bind of [q] to the fanout exchange [E] on a connected
    channel: the registry entry, the cursor past the documents of the
    broadcast collection, the read count, and the routing row. *)
Lemma queue_bind_fresh_connected E rk p q w :
  connected w →
  typeof (self w) E = "fanout" →
  _queue_cursors (self w) !! q = None →
  _queue_bind E rk p q w =
  (Return tt,
   mkWorld
     (snd (routing_update (mkRoute E q rk p) (server w)))
     (<[q := E]> (_fanout_queues w))
     (set_queue_readcounts
        (<[q := Z.of_nat (broadcasts w)]> (_queue_readcounts (self w)))
        (advance q (mkCursor None (broadcasts w) 0 false false) (self w)))).
Proof.
  intros Hc Ht Hcur. unfold _queue_bind. rewrite !bind_eq. unfold get_self.
  rewrite Ht. rewrite String.eqb_refl.
  rewrite !bind_eq. unfold modify_fanout_queues.
  rewrite (ensure_cursor_fresh q E (set_fanout_queues _ w));
    [| exact Hc | by simpl; rewrite lookup_insert_eq | exact Hcur].
  destruct Hc as [Hh [h Hcl]].
  rewrite !bind_eq, (client_cached _ h) by exact Hcl.
  rewrite write_healthy by exact Hh.
  by destruct w as [[] ? []].
Qed.

(** A bind of a queue that has its cursor: the registry entry and the
    routing row; the channel is as it was. *)
Lemma queue_bind_again_connected E rk p q cur w :
  connected w →
  typeof (self w) E = "fanout" →
  _queue_cursors (self w) !! q = Some cur →
  _queue_bind E rk p q w =
  (Return tt,
   mkWorld
     (snd (routing_update (mkRoute E q rk p) (server w)))
     (<[q := E]> (_fanout_queues w))
     (self w)).
Proof.
  intros Hc Ht Hcur. unfold _queue_bind. rewrite !bind_eq. unfold get_self.
  rewrite Ht. rewrite String.eqb_refl.
  rewrite !bind_eq. unfold modify_fanout_queues.
  rewrite (ensure_cursor_present q (set_fanout_queues _ w) E cur);
    [| apply Hc | by simpl; rewrite lookup_insert_eq | exact Hcur].
  destruct Hc as [Hh [h Hcl]].
  rewrite !bind_eq, (client_cached _ h) by exact Hcl.
  rewrite write_healthy by exact Hh.
  by destruct w as [[] ? []].
Qed.

Lemma fan_inv_after_bind E rk p q w :
  connected w →
  fan_inv q E []
    (mkWorld
       (snd (routing_update (mkRoute E q rk p) (server w)))
       (<[q := E]> (_fanout_queues w))
       (set_queue_readcounts
          (<[q := Z.of_nat (broadcasts w)]> (_queue_readcounts (self w)))
          (advance q (mkCursor None (broadcasts w) 0 false false) (self w)))).
Proof.
  intros [Hh Hcl]. destruct w as [s fq c]. destruct s, c.
  unfold fan_inv, connected, healthy, feed, broadcasts in *. simpl in *.
  rewrite lookup_insert_eq. repeat split; try done.
  eexists _, _. rewrite !lookup_insert_eq. repeat split; simpl; try done.
  - lia.
  - rewrite Nat.add_0_r, drop_all. reflexivity.
Qed.

(** The first bind of another queue leaves a fanout queue in working
    order, with the same unread messages. *)
Lemma fan_inv_bind_other E E' rk p q q' unread w :
  q ≠ q' →
  fan_inv q E unread w →
  fan_inv q E unread
    (mkWorld
       (snd (routing_update (mkRoute E' q' rk p) (server w)))
       (<[q' := E']> (_fanout_queues w))
       (set_queue_readcounts
          (<[q' := Z.of_nat (broadcasts w)]> (_queue_readcounts (self w)))
          (advance q' (mkCursor None (broadcasts w) 0 false false) (self w)))).
Proof.
  intros Hne (Hc & Hf & cur & rc & Hcur & Hrc & Hq & Hk & Hle & Hun).
  destruct Hc as [Hh Hcl]. destruct w as [s fq c]. destruct s, c.
  unfold fan_inv, connected, healthy, feed, broadcasts in *. simpl in *.
  rewrite lookup_insert_ne by done. repeat split; try done.
  exists cur, rc. rewrite !lookup_insert_ne by done. done.
Qed.

(** What [kept] keeps is what a fanout queue in working order rests
    on. *)
Lemma fan_inv_kept q E unread w w' :
  fan_inv q E unread w → kept q w w' → fan_inv q E unread w'.
Proof.
  intros ([Hh Hcl] & Hf & cur & rc & Hcur & Hrc & Hrest)
         (Kf & Kb & Kq & Kc & Kcur & Krc).
  split; [split|].
  - unfold healthy in *. by rewrite Kf.
  - by rewrite (Kc Hcl).
  - split; [by rewrite Kq|]. exists cur, rc.
    unfold feed in *. rewrite Kcur, Krc, Kb. done.
Qed.

Lemma kept_get_n {Message} `{Json Message} q q1 n :
  q1 ≠ q → preserves (kept q) (get_n (Message:=Message) q1 n).
Proof.
  intros Hne. induction n as [|n IH]; simpl.
  - kdone.
  - kbind; [by apply kept_get|]. kbind; [exact IH|]. kdone.
Qed.





(** Two fanout queues in working order both receive what is published
    from then on, after what each had unread, whatever the other
    dequeues. *)
Lemma fan_inv_pair_delivery {Message} `{JsonRoundTrip Message}
    (q1 q2 E1 E2 E' : string) (u1 u2 : list string) (ms : list Message)
    (w : World) :
  q1 ≠ q2 →
  fan_inv q1 E1 u1 w →
  fan_inv q2 E2 u2 w →
  ∃ w1 w2 w3 w4 w5,
    publish_all E' ms w = (Return tt, w1) ∧
    get_n q1 (length u1 + length ms) w1
      = (Return (map loads u1 ++ ms)%list, w2) ∧
    _get (Message:=Message) q1 w2 = (Raise Empty, w3) ∧
    get_n q2 (length u2 + length ms) w3
      = (Return (map loads u2 ++ ms)%list, w4) ∧
    _get (Message:=Message) q2 w4 = (Raise Empty, w5).
Proof.
  intros Hne I J.
  assert (Hld : ∀ (u : list string) (l : list Message),
            map loads (u ++ map dumps l) = (map loads u ++ l)%list).
  { intros u l. rewrite map_app, map_map.
    rewrite (map_ext (λ x, loads (dumps x)) id) by (intros x; apply loads_dumps).
    by rewrite map_id. }
  destruct (publish_all_fan_inv q1 E1 E' ms u1 w I) as (w1 & Hp & I1).
  destruct (publish_all_fan_inv q2 E2 E' ms u2 w J) as (w1' & Hp' & J1).
  rewrite Hp in Hp'. inversion Hp'; subst w1'. clear Hp'.
  destruct (get_n_fan_inv (Message:=Message) q1 E1 _ w1 I1) as (w2 & Hg1 & I2).
  rewrite length_app, length_map, Hld in Hg1.
  assert (J2 : fan_inv q2 E2 (u2 ++ map dumps ms) w2).
  { apply (fan_inv_kept q2 E2 _ w1); [done|].
    pose proof (kept_get_n (Message:=Message) q2 q1
                  (length u1 + length ms) Hne w1) as K.
    by rewrite Hg1 in K. }
  destruct (get_fan_inv_none (Message:=Message) q1 E1 w2 I2) as (w3 & He1 & _).
  assert (J3 : fan_inv q2 E2 (u2 ++ map dumps ms) w3).
  { apply (fan_inv_kept q2 E2 _ w2); [done|].
    pose proof (kept_get (Message:=Message) q2 q1 Hne w2) as K.
    by rewrite He1 in K. }
  destruct (get_n_fan_inv (Message:=Message) q2 E2 _ w3 J3) as (w4 & Hg2 & J4).
  rewrite length_app, length_map, Hld in Hg2.
  destruct (get_fan_inv_none (Message:=Message) q2 E2 w4 J4) as (w5 & He2 & _).
  by exists w1, w2, w3, w4, w5.
Qed.

(** Publishing leaves the channel as it is and connected. *)
Lemma publish_all_self {Message} `{Json Message} E (ms : list Message) :
  ∀ w w', publish_all E ms w = (Return tt, w') → connected w →
          self w' = self w ∧ connected w'.
Proof.
  induction ms as [|m ms IH]; intros u v Hpub Hcu; simpl in Hpub.
  - inversion Hpub. by subst.
  - rewrite bind_eq, (put_fanout_connected E m u Hcu) in Hpub.
    apply IH in Hpub as [Hs Hcv].
    + split; [by rewrite Hs | done].
    + destruct Hcu as [Hh Hcl]. split; [|exact Hcl].
      unfold healthy in *. by destruct u as [[] ? ?].
Qed.

(** C4.  Two distinct fanout queues have a cursor and a read count each.
    A dequeue on [q1], whatever its outcome, leaves the cursor and the
    read count of [q2] and the broadcast collection as they were, so
    that the next dequeue on [q2] returns what it would have returned
    without it.  And each queue receives what is published after its own
    bind: bind [q1] to [E] for the first time, publish [ms1], bind [q2]
    to [E] for the first time, publish [ms2]; then [q1] dequeues [ms1]
    followed by [ms2] and is empty, and after that [q2] still dequeues
    all of [ms2], and is empty.  In general, two queues of [E] in working
    order, with [u1] and [u2] unread: after a publish of [ms], [q1]
    dequeues [u1] and then [ms], and after that [q2] still dequeues [u2]
    and then [ms]. *)
Theorem fanout_dequeue_independent {Message} `{Json Message}
    (q1 q2 : string) (w : World) :
  q1 ≠ q2 →
  (let w' := snd (_get (Message:=Message) q1 w) in
   _queue_cursors (self w') !! q2 = _queue_cursors (self w) !! q2 ∧
   _queue_readcounts (self w') !! q2 = _queue_readcounts (self w) !! q2 ∧
   coll_broadcast (server w') = coll_broadcast (server w) ∧
   (∀ e cur,
      connected w →
      _fanout_queues w !! q2 = Some e →
      _queue_cursors (self w) !! q2 = Some cur →
      c_killed cur = false →
      fst (_get (Message:=Message) q2 w') = fst (_get (Message:=Message) q2 w))) ∧
  (∀ (E rk1 p1 rk2 p2 : string) (ms1 ms2 : list Message),
     JsonRoundTrip Message →
     usable w →
     typeof (self w) E = "fanout" →
     _queue_cursors (self w) !! q1 = None →
     _queue_cursors (self w) !! q2 = None →
     ∃ w1 w2 w3 w4 w5 w6 w7 w8,
       _queue_bind E rk1 p1 q1 w = (Return tt, w1) ∧
       publish_all E ms1 w1 = (Return tt, w2) ∧
       _queue_bind E rk2 p2 q2 w2 = (Return tt, w3) ∧
       publish_all E ms2 w3 = (Return tt, w4) ∧
       get_n q1 (length ms1 + length ms2) w4 = (Return (ms1 ++ ms2)%list, w5) ∧
       _get (Message:=Message) q1 w5 = (Raise Empty, w6) ∧
       get_n q2 (length ms2) w6 = (Return ms2, w7) ∧
       _get (Message:=Message) q2 w7 = (Raise Empty, w8)) ∧
  (∀ (E : string) (u1 u2 : list string) (ms : list Message),
     JsonRoundTrip Message →
     fan_inv q1 E u1 w →
     fan_inv q2 E u2 w →
     ∃ w1 w2 w3 w4 w5,
       publish_all E ms w = (Return tt, w1) ∧
       get_n q1 (length u1 + length ms) w1
         = (Return (map loads u1 ++ ms)%list, w2) ∧
       _get (Message:=Message) q1 w2 = (Raise Empty, w3) ∧
       get_n q2 (length u2 + length ms) w3
         = (Return (map loads u2 ++ ms)%list, w4) ∧
       _get (Message:=Message) q2 w4 = (Raise Empty, w5)).
Proof.
  intros Hne. split; [|split].
  - intros w'.
    destruct (kept_get (Message:=Message) q2 q1 Hne w)
      as (Hf & Hb & Hfq & Hcl & Hcur & Hrc).
    fold w' in Hf, Hb, Hfq, Hcl, Hcur, Hrc.
    repeat split; try done.
    intros e cur [Hh Hc] He Hq Hk.
    rewrite (get_fanout_connected q2 w e cur) by done.
    rewrite (get_fanout_connected q2 w' e cur).
    + unfold feed. rewrite Hb, Hrc.
      destruct (Cursor_next _ cur) as [[d|] cur']; simpl; [|done].
      by destruct (_queue_readcounts (self w) !! q2).
    + split; [unfold healthy; by rewrite Hf | by rewrite (Hcl Hc)].
    + by rewrite Hfq.
    + by rewrite Hcur.
    + done.
  - intros E rk1 p1 rk2 p2 ms1 ms2 RT Hu Ht Hc1 Hc2.
    destruct (ready_same_data w)
      as (_ & _ & _ & _ & _ & _ & _ & _ & _ & Eex & Ecur & _).
    pose proof (ready_connected w Hu) as Hc.
    (* the first bind of q1 *)
    pose proof (queue_bind_fresh_connected E rk1 p1 q1 (ready w) Hc) as Hb1.
    rewrite typeof_ready, Ecur in Hb1. specialize (Hb1 Ht Hc1).
    rewrite <- queue_bind_ready in Hb1 by done.
    pose proof (fan_inv_after_bind E rk1 p1 q1 (ready w) Hc) as I1.
    set (w1 := mkWorld _ _ _) in Hb1, I1.
    (* the publish of ms1 *)
    destruct (publish_all_fan_inv q1 E E ms1 [] w1 I1) as (w2 & Hp1 & I2).
    simpl app in I2.
    destruct (publish_all_self E ms1 w1 w2 Hp1 (proj1 I1)) as [Hs2 Hcn2].
    (* the first bind of q2 *)
    assert (Hc2' : _queue_cursors (self w2) !! q2 = None).
    { rewrite Hs2. subst w1. simpl. rewrite lookup_insert_ne by done.
      by rewrite Ecur. }
    assert (Ht2 : typeof (self w2) E = "fanout").
    { rewrite Hs2. subst w1. unfold typeof in *. simpl.
      destruct (ready w) as [? ? []]. simpl in *. by rewrite Eex. }
    pose proof (queue_bind_fresh_connected E rk2 p2 q2 w2 Hcn2 Ht2 Hc2') as Hb2.
    pose proof (fan_inv_after_bind E rk2 p2 q2 w2 Hcn2) as J3.
    pose proof (fan_inv_bind_other E E rk2 p2 q1 q2 _ w2 Hne I2) as I3.
    set (w3 := mkWorld _ _ _) in Hb2, J3, I3.
    (* the publish of ms2 and the dequeues *)
    destruct (fan_inv_pair_delivery q1 q2 E E E _ _ ms2 w3 Hne I3 J3)
      as (w4 & w5 & w6 & w7 & w8 & Hp2 & Hg1 & He1 & Hg2 & He2).
    rewrite length_map, map_map in Hg1.
    rewrite (map_ext (λ x, loads (dumps x)) id) in Hg1
      by (intros x; apply RT).
    rewrite map_id in Hg1.
    by exists w1, w2, w3, w4, w5, w6, w7, w8.
  - intros E u1 u2 ms RT I J.
    by apply (fan_inv_pair_delivery q1 q2 E E E).
Qed.

Lemma fanout_dequeue_independent_witness :
  (∃ w1 w2 w3 w4 w5 w6 w7 w8,
     _queue_bind "logs" "" "" "q1" fresh_world = (Return tt, w1) ∧
     publish_all "logs" ["a"] w1 = (Return tt, w2) ∧
     _queue_bind "logs" "" "" "q2" w2 = (Return tt, w3) ∧
     publish_all "logs" ["b"; "c"] w3 = (Return tt, w4) ∧
     get_n "q1" (1 + 2) w4 = (Return (["a"] ++ ["b"; "c"])%list, w5) ∧
     _get (Message:=string) "q1" w5 = (Raise Empty, w6) ∧
     get_n "q2" 2 w6 = (Return ["b"; "c"], w7) ∧
     _get (Message:=string) "q2" w7 = (Raise Empty, w8)) ∧
  (∃ w1 w2 w3 w4 w5,
     publish_all "logs" ["n"] two_bound_world = (Return tt, w1) ∧
     get_n "q1" 2 w1 = (Return ["z"; "n"], w2) ∧
     _get (Message:=string) "q1" w2 = (Raise Empty, w3) ∧
     get_n "q2" 2 w3 = (Return ["z"; "n"], w4) ∧
     _get (Message:=string) "q2" w4 = (Raise Empty, w5)).
Proof.
  split.
  - destruct (fanout_dequeue_independent (Message:=string) "q1" "q2" fresh_world)
      as (_ & Hd & _); [discriminate|].
    apply (Hd "logs" "" "" "" "" ["a"] ["b"; "c"]).
    + exact string_json_round_trip.
    + split; [reflexivity|]. right. split; [simpl; eauto | reflexivity].
    + reflexivity.
    + reflexivity.
    + reflexivity.
  - destruct (fanout_dequeue_independent (Message:=string) "q1" "q2"
                two_bound_world) as (_ & _ & Hg); [discriminate|].
    refine (Hg "logs" ["z"] ["z"] ["n"] string_json_round_trip _ _).
    + split; [split; [reflexivity | vm_compute; eauto]|].
      split; [vm_compute; reflexivity|].
      exists (mkCursor None 0 0 false false), 0.
      split; [vm_compute; reflexivity|].
      split; [vm_compute; reflexivity|].
      split; [reflexivity|]. split; [reflexivity|].
      split; [vm_compute; lia | vm_compute; reflexivity].
    + split; [split; [reflexivity | vm_compute; eauto]|].
      split; [vm_compute; reflexivity|].
      exists (mkCursor None 0 0 false false), 0.
      split; [vm_compute; reflexivity|].
      split; [vm_compute; reflexivity|].
      split; [reflexivity|]. split; [reflexivity|].
      split; [vm_compute; lia | vm_compute; reflexivity].
Defined.



(** ** Size and purge *)

Lemma size_fanout_connected q E cur rc w :
  connected w →
  _fanout_queues w !! q = Some E →
  _queue_cursors (self w) !! q = Some cur →
  _queue_readcounts (self w) !! q = Some rc →
  _size q w = (Return (Z.of_nat (length (feed cur w)) - rc), w).
Proof.
  intros [Hh Hc] Hf Hcur Hrc. unfold _size.
  rewrite bind_eq. unfold get_fanout_queues. rewrite Hf. simpl.
  rewrite bind_eq, (ensure_cursor_present q w E cur) by done.
  unfold cursor_of. rewrite !bind_eq. unfold get_self. rewrite Hcur.
  unfold mret, M_ret, ret, Cursor_count.
  rewrite !bind_eq, request_healthy by done. simpl.
  rewrite bind_eq. simpl. rewrite Hrc. by destruct w as [[] ? ?].
Qed.

Lemma purge_fanout_connected q E cur rc w :
  connected w →
  _fanout_queues w !! q = Some E →
  _queue_cursors (self w) !! q = Some cur →
  _queue_readcounts (self w) !! q = Some rc →
  _purge q w =
  (Return (Z.of_nat (length (feed cur w)) - rc),
   set_self
     (advance q (mkCursor (c_spec cur) (length (feed cur w)) 0 false false)
        (self w)) w).
Proof.
  intros Hc Hf Hcur Hrc. unfold _purge.
  rewrite bind_eq, (size_fanout_connected q E cur rc w) by done.
  destruct Hc as [Hh Hc].
  rewrite !bind_eq. unfold get_fanout_queues. rewrite Hf. simpl.
  unfold cursor_of. rewrite !bind_eq. unfold get_self. rewrite Hcur.
  unfold mret, M_ret, ret. rewrite bind_eq.
  unfold store_cursor at 1, modify_self. unfold Cursor_count.
  rewrite !bind_eq, request_healthy by done. simpl.
  unfold store_cursor, modify_self, advance, feed. simpl.
  rewrite insert_insert_eq. by destruct w as [[] ? []].
Qed.

(** C2, the fanout half, as the code behaves: [_purge] on a fanout queue
    returns the size the queue had, and moves the cursor past everything
    stored, but it leaves the read count alone, so that [_size] right
    after the purge returns the same number again instead of zero. *)
Theorem fanout_purge_keeps_size (q E : string) (cur : Cursor) (rc : Z)
    (w : World) :
  connected w →
  _fanout_queues w !! q = Some E →
  _queue_cursors (self w) !! q = Some cur →
  _queue_readcounts (self w) !! q = Some rc →
  ∃ w',
    _size q w = (Return (Z.of_nat (length (feed cur w)) - rc), w) ∧
    _purge q w = (Return (Z.of_nat (length (feed cur w)) - rc), w') ∧
    _size q w' = (Return (Z.of_nat (length (feed cur w)) - rc), w').
Proof.
  intros Hc Hf Hcur Hrc. eexists. split; [by eapply size_fanout_connected|].
  split; [by eapply purge_fanout_connected|].
  set (cur' := mkCursor (c_spec cur) (length (feed cur w)) 0 false false).
  rewrite (size_fanout_connected q E cur' rc).
  - reflexivity.
  - destruct Hc as [Hh Hcl]. split; [exact Hh|]. by destruct w as [? ? []].
  - exact Hf.
  - simpl. destruct w as [? ? []]. simpl. by rewrite lookup_insert_eq.
  - by destruct w as [? ? []].
Qed.

Lemma fanout_purge_keeps_size_witness :
  ∃ w',
    _size "q1" unread_world = (Return 3, unread_world) ∧
    _purge "q1" unread_world = (Return 3, w') ∧
    _size "q1" w' = (Return 3, w').
Proof.
  destruct (fanout_purge_keeps_size "q1" "logs" (mkCursor None 0 0 false false)
              0 unread_world) as (w' & H1 & H2 & H3).
  - split; [reflexivity|]. vm_compute. eauto.
  - vm_compute. reflexivity.
  - vm_compute. reflexivity.
  - vm_compute. reflexivity.
  - exists w'. auto.
Defined.

(** ** The routing table *)

Lemma route_eqb_eq a b : route_eqb a b = true ↔ a = b.
Proof.
  unfold route_eqb. rewrite !andb_true_iff, !String.eqb_eq.
  destruct a, b; simpl. split.
  - intros [[[-> ->] ->] ->]. reflexivity.
  - intros [= -> -> -> ->]. done.
Qed.

Lemma route_eqb_refl a : route_eqb a a = true.
Proof. by apply route_eqb_eq. Qed.

(** An upsert changes nothing when the row is there and appends it
    otherwise. *)
Lemma upsert_spec meta l :
  upsert meta l = if existsb (λ r, route_eqb r meta) l then l
                  else (l ++ [meta])%list.
Proof.
  induction l as [|r l IH]; simpl; [done|].
  destruct (route_eqb r meta) eqn:E; simpl.
  - apply route_eqb_eq in E. by subst.
  - rewrite IH. by destruct (existsb _ l).
Qed.

Lemma rows_of_nil_iff meta l :
  rows_of meta l = [] ↔ existsb (λ r, route_eqb r meta) l = false.
Proof.
  unfold rows_of. induction l as [|r l IH]; simpl; [done|].
  destruct (route_eqb r meta); simpl; [split; discriminate | exact IH].
Qed.

Lemma upsert_rows meta l :
  rows_of meta (upsert meta l) =
  match rows_of meta l with
  | [] => [meta]
  | rows => rows
  end.
Proof.
  rewrite upsert_spec.
  destruct (existsb (λ r, route_eqb r meta) l) eqn:E.
  - destruct (rows_of meta l) eqn:Er; [|done].
    apply rows_of_nil_iff in Er. congruence.
  - apply rows_of_nil_iff in E as Er. rewrite Er.
    unfold rows_of in *. rewrite List.filter_app, Er. simpl.
    by rewrite route_eqb_refl.
Qed.

Lemma upsert_idempotent meta l : upsert meta (upsert meta l) = upsert meta l.
Proof.
  rewrite (upsert_spec meta (upsert meta l)).
  destruct (existsb _ (upsert meta l)) eqn:E; [done|].
  apply rows_of_nil_iff in E. rewrite upsert_rows in E.
  by destruct (rows_of meta l).
Qed.

Lemma queue_bind_connected E rk p q w :
  connected w →
  ∃ w', _queue_bind E rk p q w = (Return tt, w') ∧
        connected w' ∧
        coll_routing (server w') =
          upsert (mkRoute E q rk p) (coll_routing (server w)) ∧
        state_exchanges (self w') = state_exchanges (self w).
Proof.
  intros Hc.
  destruct (String.eqb (typeof (self w) E) "fanout") eqn:Ht.
  - destruct (_queue_cursors (self w) !! q) as [cur|] eqn:Hcur.
    + unfold _queue_bind. rewrite !bind_eq. unfold get_self. rewrite Ht.
      rewrite !bind_eq. unfold modify_fanout_queues.
      rewrite (ensure_cursor_present q (set_fanout_queues _ w) E cur);
        [| apply Hc | by simpl; rewrite lookup_insert_eq | exact Hcur].
      destruct Hc as [Hh [h Hcl]].
      rewrite !bind_eq, (client_cached _ h) by exact Hcl.
      rewrite write_healthy by exact Hh.
      eexists. split; [reflexivity|].
      unfold connected, healthy in *. destruct w as [[] ? []]. simpl in *.
      rewrite Hcl. eauto.
    + apply String.eqb_eq in Ht.
      rewrite (queue_bind_fresh_connected E rk p q w) by done.
      eexists. split; [reflexivity|].
      destruct Hc as [Hh [h Hcl]].
      unfold connected, healthy in *. destruct w as [[] ? []]. simpl in *.
      rewrite Hcl. eauto.
  - unfold _queue_bind. rewrite !bind_eq. unfold get_self. rewrite Ht.
    unfold mret at 1, M_ret, ret.
    destruct Hc as [Hh [h Hcl]].
    rewrite !bind_eq, (client_cached _ h) by exact Hcl.
    rewrite write_healthy by exact Hh.
    eexists. split; [reflexivity|].
    unfold connected, healthy in *. destruct w as [[] ? []]. simpl in *.
    rewrite Hcl. eauto.
Qed.

Lemma get_table_connected E ex w :
  connected w →
  state_exchanges (self w) !! E = Some ex →
  get_table E w =
  (Return (list_to_set (ex_table ex) ∪
           list_to_set (map entry_of
                          (List.filter (λ r, String.eqb (r_exchange r) E)
                             (coll_routing (server w))))), w).
Proof.
  intros [Hh [h Hcl]] Hex. unfold get_table.
  rewrite bind_eq. unfold get_self. rewrite Hex.
  rewrite bind_eq, (client_cached _ h) by exact Hcl.
  rewrite bind_eq, request_healthy by exact Hh. simpl.
  by destruct w as [[] ? ?].
Qed.

Lemma occurrences_elem (x : string * string * string)
    (t : gset (string * string * string)) :
  x ∈ t → occurrences x t = 1%nat.
Proof.
  intros Hx. unfold occurrences.
  apply NoDup_count_occ'; [apply NoDup_ListNoDup, NoDup_elements|].
  apply list_elem_of_In, elem_of_elements, Hx.
Qed.

(** C5.  Binding the same [(exchange, routing_key, pattern, queue)] twice
    leaves one routing row for it (the routing collection holding at most
    one such row before), and [get_table] of the exchange, which is the
    union of the local table and the entries of the routing rows of the
    exchange as a set, holds the entry once. *)
Theorem bind_twice_one_row (E rk p q : string) (ex : Exchange) (w : World) :
  usable w →
  state_exchanges (self w) !! E = Some ex →
  (length (rows_of (mkRoute E q rk p) (coll_routing (server w))) ≤ 1)%nat →
  ∃ w2 t,
    (_queue_bind E rk p q;; _queue_bind E rk p q) w = (Return tt, w2) ∧
    rows_of (mkRoute E q rk p) (coll_routing (server w2)) = [mkRoute E q rk p] ∧
    get_table E w2 = (Return t, w2) ∧
    t = list_to_set (ex_table ex) ∪
        list_to_set (map entry_of
                       (List.filter (λ r, String.eqb (r_exchange r) E)
                          (coll_routing (server w2)))) ∧
    (rk, p, q) ∈ t ∧
    occurrences (rk, p, q) t = 1%nat.
Proof.
  intros Hu Hex Hle.
  destruct (ready_same_data w)
    as (_ & _ & _ & _ & _ & Er & _ & _ & _ & Eex & _).
  destruct (queue_bind_connected E rk p q (ready w) (ready_connected w Hu))
    as (w1 & Hb1 & Hc1 & Hr1 & Hx1).
  destruct (queue_bind_connected E rk p q w1 Hc1)
    as (w2 & Hb2 & Hc2 & Hr2 & Hx2).
  assert (Hrows : rows_of (mkRoute E q rk p) (coll_routing (server w2))
                  = [mkRoute E q rk p]).
  { rewrite Hr2, Hr1, upsert_idempotent, upsert_rows, Er.
    destruct (rows_of _ (coll_routing (server w))) as [|r [|r' l]] eqn:Erows;
      [done | | simpl in Hle; lia].
    assert (Hin : In r (rows_of (mkRoute E q rk p) (coll_routing (server w))))
      by (rewrite Erows; by left).
    unfold rows_of in Hin. apply filter_In in Hin as [_ Hin].
    apply route_eqb_eq in Hin. by subst. }
  assert (Hin : (rk, p, q) ∈
    (list_to_set (ex_table ex) ∪
     list_to_set (map entry_of
                    (List.filter (λ r, String.eqb (r_exchange r) E)
                       (coll_routing (server w2)))) : gset _)).
  { apply elem_of_union. right. apply elem_of_list_to_set.
    apply list_elem_of_In, in_map_iff. exists (mkRoute E q rk p).
    split; [reflexivity|]. apply filter_In. split; [|apply String.eqb_refl].
    assert (Hm : In (mkRoute E q rk p)
                   (rows_of (mkRoute E q rk p) (coll_routing (server w2))))
      by (rewrite Hrows; by left).
    unfold rows_of in Hm. by apply filter_In in Hm as [Hm _]. }
  eexists w2, _. split.
  { rewrite bind_eq, queue_bind_ready, Hb1 by done. exact Hb2. }
  split; [exact Hrows|]. split.
  { apply get_table_connected; [done|]. by rewrite Hx2, Hx1, Eex. }
  split; [reflexivity|]. split; [exact Hin|].
  by apply occurrences_elem.
Qed.

Lemma bind_twice_one_row_witness :
  ∃ w2 t,
    (_queue_bind "ev" "k" "p" "q";; _queue_bind "ev" "k" "p" "q") fresh_world
      = (Return tt, w2) ∧
    rows_of (mkRoute "ev" "q" "k" "p") (coll_routing (server w2))
      = [mkRoute "ev" "q" "k" "p"] ∧
    get_table "ev" w2 = (Return t, w2) ∧
    ("k", "p", "q") ∈ t ∧
    occurrences ("k", "p", "q") t = 1%nat.
Proof.
  destruct (bind_twice_one_row "ev" "k" "p" "q"
              (mkExchange "direct" [("k", "p", "q")]) fresh_world)
    as (w2 & t & H1 & H2 & H3 & _ & H4 & H5).
  - split; [reflexivity|]. right. split; [simpl; eauto | reflexivity].
  - vm_compute. reflexivity.
  - simpl. lia.
  - exists w2, t. auto.
Defined.

(** ** Channels of one process *)

(** A call on channel [i] leaves another channel [j] its instance
    attributes; [j] sees the server and the registry the call left. *)
Lemma run_on_frame {A} (m : M A) (i j : nat) (p : Process) (wi wj : World) :
  i ≠ j →
  view i p = Some wi →
  view j p = Some wj →
  ∃ p',
    run_on i m p = Some (fst (m wi), p') ∧
    p_server p' = server (snd (m wi)) ∧
    view j p' =
      Some (mkWorld (server (snd (m wi))) (_fanout_queues (snd (m wi))) (self wj)).
Proof.
  intros Hne Hi Hj. unfold run_on. rewrite Hi.
  destruct (m wi) as [r w'] eqn:Em. eexists. split; [reflexivity|].
  split; [reflexivity|]. unfold view in *. simpl.
  rewrite list_lookup_insert_ne by done.
  destruct (p_channels p !! j) as [cj|] eqn:Ecj; [|done].
  inversion Hj; subst wj. done.
Qed.

Lemma view_fanout_queues i p w : view i p = Some w → _fanout_queues w = p_fanout_queues p.
Proof.
  unfold view. destruct (p_channels p !! i); [|done]. by intros [= <-].
Qed.

(** Binding to a fanout exchange writes the registry entry, whether the
    queue has a cursor on the channel or not. *)
Lemma queue_bind_fanout_registry E rk p q w :
  usable w →
  typeof (self w) E = "fanout" →
  ∃ w', _queue_bind E rk p q w = (Return tt, w') ∧
        _fanout_queues w' = <[q := E]> (_fanout_queues w).
Proof.
  intros Hu Ht. rewrite queue_bind_ready by done.
  pose proof (ready_connected w Hu) as Hc.
  assert (Ht' : typeof (self (ready w)) E = "fanout") by by rewrite typeof_ready.
  destruct (_queue_cursors (self (ready w)) !! q) as [cur|] eqn:Hcur.
  - rewrite (queue_bind_again_connected E rk p q cur (ready w)) by done.
    eexists. split; [reflexivity|]. simpl. by rewrite ready_fanout.
  - rewrite (queue_bind_fresh_connected E rk p q (ready w)) by done.
    eexists. split; [reflexivity|]. simpl. by rewrite ready_fanout.
Qed.

(** Deleting a queue drops it from the registry the base deletion
    left. *)
Lemma queue_delete_registry (super_queue_delete : string → M unit) q w w1 :
  is_Some (routing (self w)) →
  healthy w →
  super_queue_delete q (set_server (snd (routing_remove q (server w))) w)
    = (Return tt, w1) →
  ∃ w', queue_delete super_queue_delete q w = (Return tt, w') ∧
        _fanout_queues w' = delete q (_fanout_queues w1).
Proof.
  intros [rt Hrt] Hh Hsup.
  unfold queue_delete. rewrite bind_eq. unfold get_self. rewrite Hrt.
  rewrite bind_eq, write_healthy by done.
  change (fst (routing_remove q (server w))) with (Return (A:=unit) tt).
  rewrite bind_eq, Hsup, bind_eq. unfold get_fanout_queues.
  destruct (_fanout_queues w1 !! q) as [e|] eqn:He; simpl.
  - rewrite bind_eq. unfold modify_self, modify_fanout_queues. simpl.
    eexists. split; reflexivity.
  - exists w1. split; [reflexivity|]. symmetry. by apply delete_id.
Qed.

(** C8 as the code has it.  The cursors and the read counts are instance
    attributes, the fanout registry [_fanout_queues] is a class attribute,
    one dict for all channels.  Binding a queue to a fanout exchange on
    channel [i] leaves another channel [j] its instance attributes, its
    cursors and read counts among them, and puts the entry of the queue
    into the registry [j] observes.  Deleting a queue on channel [i]
    (the base deletion returning and leaving the registry alone) leaves
    [j] its instance attributes and takes the queue out of the registry
    [j] observes. *)
Theorem cursors_private_registry_shared (super_queue_delete : string → M unit)
    (E rk pt q : string) (i j : nat) (p : Process) (wi wj : World) :
  i ≠ j →
  view i p = Some wi →
  view j p = Some wj →
  usable wi →
  (typeof (self wi) E = "fanout" →
   ∃ p',
     run_on i (_queue_bind E rk pt q) p = Some (Return tt, p') ∧
     view j p' =
       Some (mkWorld (p_server p') (<[q := E]> (_fanout_queues wj)) (self wj)) ∧
     _queue_cursors <$> (p_channels p' !! j) = Some (_queue_cursors (self wj)) ∧
     _queue_readcounts <$> (p_channels p' !! j)
       = Some (_queue_readcounts (self wj))) ∧
  (∀ w1,
     is_Some (routing (self wi)) →
     super_queue_delete q (set_server (snd (routing_remove q (server wi))) wi)
       = (Return tt, w1) →
     _fanout_queues w1 = _fanout_queues wi →
     ∃ p',
       run_on i (queue_delete super_queue_delete q) p = Some (Return tt, p') ∧
       view j p' =
         Some (mkWorld (p_server p') (delete q (_fanout_queues wj)) (self wj)) ∧
       _queue_cursors <$> (p_channels p' !! j) = Some (_queue_cursors (self wj)) ∧
       _queue_readcounts <$> (p_channels p' !! j)
         = Some (_queue_readcounts (self wj))).
Proof.
  intros Hne Hi Hj Hu.
  assert (Hfq : _fanout_queues wi = _fanout_queues wj).
  { by rewrite (view_fanout_queues i p wi), (view_fanout_queues j p wj). }
  assert (Hch : ∀ p' d f, view j p' = Some (mkWorld d f (self wj)) →
                          p_channels p' !! j = Some (self wj)).
  { intros p' d f. unfold view. destruct (p_channels p' !! j); [|done].
    by intros [= _ _ ->]. }
  split.
  - intros Ht.
    destruct (queue_bind_fanout_registry E rk pt q wi Hu Ht) as (w' & Hb & Hr).
    destruct (run_on_frame (_queue_bind E rk pt q) i j p wi wj Hne Hi Hj)
      as (p' & Hrun & Hsrv & Hv).
    rewrite Hb in Hrun, Hsrv, Hv. simpl in Hrun, Hsrv, Hv.
    rewrite Hr, Hfq, <- Hsrv in Hv.
    exists p'. split; [exact Hrun|]. split; [exact Hv|].
    by rewrite (Hch _ _ _ Hv).
  - intros w1 Hrt Hsup Hkeep.
    destruct (queue_delete_registry super_queue_delete q wi w1 Hrt (proj1 Hu) Hsup)
      as (w' & Hd & Hr).
    destruct (run_on_frame (queue_delete super_queue_delete q) i j p wi wj
                Hne Hi Hj) as (p' & Hrun & Hsrv & Hv).
    rewrite Hd in Hrun, Hsrv, Hv. simpl in Hrun, Hsrv, Hv.
    rewrite Hr, Hkeep, Hfq, <- Hsrv in Hv.
    exists p'. split; [exact Hrun|]. split; [exact Hv|].
    by rewrite (Hch _ _ _ Hv).
Qed.

Lemma cursors_private_registry_shared_witness :
  (∃ p',
     run_on 0 (_queue_bind "logs" "" "" "q1") two_channels = Some (Return tt, p') ∧
     view 1 p' =
       Some (mkWorld (p_server p') (<["q1" := "logs"]> ∅) fresh_channel)) ∧
  (∃ p',
     run_on 0 (queue_delete (λ _, mret tt) "q1") bound_channels
       = Some (Return tt, p') ∧
     view 1 p' =
       Some (mkWorld (p_server p')
               (delete "q1" (_fanout_queues bound_world)) fresh_channel)).
Proof.
  split.
  - destruct (cursors_private_registry_shared (λ _, mret tt)
                "logs" "" "" "q1" 0 1 two_channels fresh_world fresh_world)
      as [Hb _].
    + lia.
    + reflexivity.
    + reflexivity.
    + split; [reflexivity|]. right. split; [simpl; eauto | reflexivity].
    + destruct Hb as (p' & H1 & H2 & _); [reflexivity|].
      exists p'. split; [exact H1 | exact H2].
  - destruct (cursors_private_registry_shared (λ _, mret tt)
                "logs" "" "" "q1" 0 1 bound_channels bound_world
                (mkWorld (server bound_world) (_fanout_queues bound_world)
                   fresh_channel))
      as [_ Hd].
    + lia.
    + reflexivity.
    + reflexivity.
    + split; [reflexivity|]. left. vm_compute. eauto.
    + destruct (Hd (set_server (snd (routing_remove "q1" (server bound_world)))
                      bound_world)) as (p' & H1 & H2 & _).
      * vm_compute. eauto.
      * reflexivity.
      * reflexivity.
      * exists p'. split; [exact H1 | exact H2].
Defined.



(** C8 as stated fails: binding the fanout queue [q1] on the first
    channel changes the fanout registry the second channel observes, from
    no entry for [q1] to the entry [logs]. *)
Lemma fanout_registry_shared_counterexample :
  ∃ p' w1 w1',
    run_on 0 (_queue_bind "logs" "" "" "q1") two_channels = Some (Return tt, p') ∧
    view 1 two_channels = Some w1 ∧
    view 1 p' = Some w1' ∧
    _fanout_queues w1 !! "q1" = None ∧
    _fanout_queues w1' !! "q1" = Some "logs".
Proof.
  set (wi := mkWorld fresh_db ∅ fresh_channel).
  set (w' := snd (_queue_bind "logs" "" "" "q1" wi)).
  exists (mkProcess (server w') (_fanout_queues w') [self w'; fresh_channel]),
         wi, (mkWorld (server w') (_fanout_queues w') fresh_channel).
  split; [vm_compute; reflexivity|].
  split; [reflexivity|].
  split; [reflexivity|].
  split; vm_compute; reflexivity.
Qed.

(** * Further properties of the channel *)

(** ** Point-to-point queues: steps, isolation, purge *)

Lemma find_docs_pending q w :
  length (pending q w) = length (find_docs q (coll_messages (server w))).
Proof. unfold pending. apply length_map. Qed.

(** One step of a point-to-point queue in working order: an enqueue
    appends to what is waiting; a dequeue returns the oldest waiting
    message and leaves the others, or raises [Empty] when nothing waits.
    The queue stays in working order, so the steps chain in any
    interleaving. *)
Theorem p2p_queue_step {Message} `{Json Message} (q : string) (w : World) :
  p2p_inv q w →
  (∀ m : Message,
     ∃ w', _put q m w = (Return tt, w') ∧ p2p_inv q w' ∧
           pending q w' = (pending q w ++ [dumps m])%list) ∧
  match pending q w with
  | [] => _get (Message:=Message) q w = (Raise Empty, w)
  | x :: rest =>
      ∃ w', _get (Message:=Message) q w = (Return (loads x), w') ∧
            p2p_inv q w' ∧ pending q w' = rest
  end.
Proof.
  intros Hinv. split.
  - intros m. by apply put_p2p_inv.
  - unfold pending.
    destruct (find_docs q (coll_messages (server w))) as [|d l] eqn:Ef; simpl.
    + by apply get_p2p_empty.
    + destruct (get_p2p_some (Message:=Message) q w d l Hinv Ef)
        as (w' & Hg & Hinv' & Hf').
      exists w'. by rewrite Hf'.
Qed.

Lemma p2p_queue_step_witness :
  (∀ m : string,
     ∃ w', _put "orders" m stocked_world = (Return tt, w') ∧
           p2p_inv "orders" w' ∧
           pending "orders" w' = (["A"; "B"; "C"] ++ [dumps m])%list) ∧
  ∃ w', _get (Message:=string) "orders" stocked_world = (Return "A", w') ∧
        p2p_inv "orders" w' ∧ pending "orders" w' = ["B"; "C"].
Proof.
  refine (p2p_queue_step (Message:=string) "orders" stocked_world _).
  split; [split; [reflexivity | vm_compute; eauto]|].
  split; [reflexivity|].
  split.
  { split; vm_compute; [|repeat constructor].
    apply NoDup_ListNoDup. repeat constructor; simpl; lia. }
  split; [exact I|]. vm_compute. repeat constructor.
Defined.

Lemma min_id_doc_elem q l d :
  min_id_doc q l = Some d → d ∈ l ∧ queue_is q d = true.
Proof.
  induction l as [|x l IH]; simpl; [done|].
  destruct (queue_is q x) eqn:Hq.
  - destruct (min_id_doc q l) as [d'|] eqn:Em.
    + destruct (doc_id d' <? doc_id x)%nat; intros [= <-].
      * destruct (IH eq_refl) as [Hin Hqd]. split; [by right | done].
      * split; [by left | done].
    + intros [= <-]. split; [by left | done].
  - intros Hm. destruct (IH Hm) as [Hin Hqd]. split; [by right | done].
Qed.

Lemma remove_id_other q' d l :
  NoDup (map doc_id l) →
  d ∈ l →
  queue_is q' d = false →
  find_docs q' (remove_id (doc_id d) l) = find_docs q' l.
Proof.
  induction l as [|x l IH]; simpl; [done|].
  intros [Hn Hd]%NoDup_cons Hin Hq.
  destruct (Nat.eqb_spec (doc_id x) (doc_id d)) as [Heq|Hne].
  - assert (x = d) as ->.
    { apply elem_of_cons in Hin as [->|Hin]; [done|].
      exfalso. apply Hn. rewrite Heq. apply list_elem_of_fmap. eauto. }
    by rewrite Hq.
  - apply elem_of_cons in Hin as [->|Hin]; [done|].
    simpl. rewrite (IH Hd Hin Hq). reflexivity.
Qed.

Lemma queue_is_other q q' d :
  q ≠ q' → queue_is q d = true → queue_is q' d = false.
Proof.
  unfold queue_is. intros Hne Hq%String.eqb_eq.
  apply String.eqb_neq. congruence.
Qed.

Lemma find_docs_remove_same q l :
  find_docs q (List.filter (λ x, negb (queue_is q x)) l) = [].
Proof.
  induction l as [|x l IH]; simpl; [done|].
  destruct (queue_is q x) eqn:Hq; simpl; [done|]. by rewrite Hq.
Qed.

Lemma find_docs_remove_other q q' l :
  q ≠ q' →
  find_docs q' (List.filter (λ x, negb (queue_is q x)) l) = find_docs q' l.
Proof.
  intros Hne. induction l as [|x l IH]; simpl; [done|].
  destruct (queue_is q x) eqn:Hq; simpl.
  - by rewrite (queue_is_other q q' x Hne Hq).
  - by rewrite IH.
Qed.

Lemma size_p2p_connected q w :
  connected w →
  _fanout_queues w !! q = None →
  _size q w = (Return (Z.of_nat (length (pending q w))), w).
Proof.
  intros [Hh [h Hc]] Hf. unfold _size.
  rewrite bind_eq. unfold get_fanout_queues. rewrite Hf. simpl.
  rewrite bind_eq, (client_cached w h Hc), request_healthy by done.
  simpl. rewrite find_docs_pending. by destruct w as [[] ? ?].
Qed.

Lemma purge_p2p_connected q w :
  connected w →
  _fanout_queues w !! q = None →
  _purge q w =
  (Return (Z.of_nat (length (pending q w))),
   set_server (snd (messages_remove q (server w))) w).
Proof.
  intros Hc Hf. unfold _purge.
  rewrite bind_eq, (size_p2p_connected q w Hc Hf).
  destruct Hc as [Hh [h Hc]].
  rewrite !bind_eq. unfold get_fanout_queues. rewrite Hf. simpl.
  rewrite !bind_eq, (client_cached w h Hc), write_healthy by done.
  reflexivity.
Qed.

(** Purging a point-to-point queue returns the number of messages that
    were waiting and removes them: the size is then zero, a dequeue raises
    [Empty], and what waits in the other queues is as before. *)
Theorem p2p_purge {Message} `{Json Message} (q : string) (w : World) :
  usable w →
  _fanout_queues w !! q = None →
  no_match_marked (server w) →
  ∃ w',
    _purge q w = (Return (Z.of_nat (length (pending q w))), w') ∧
    _size q w' = (Return 0, w') ∧
    _get (Message:=Message) q w' = (Raise Empty, w') ∧
    ∀ q', q ≠ q' → pending q' w' = pending q' w.
Proof.
  intros Hu Hf Hnm.
  destruct (ready_same_data w) as (_ & Efa & Enm & Ems & _ & _ & _ & Efq & _).
  pose proof (ready_connected w Hu) as Hc.
  assert (Hp : ∀ q0, pending q0 (ready w) = pending q0 w)
    by (intros q0; unfold pending; by rewrite Ems).
  rewrite purge_ready by done.
  rewrite purge_p2p_connected by (done || by rewrite Efq).
  rewrite Hp.
  set (w' := set_server (snd (messages_remove q (server (ready w)))) (ready w)).
  assert (Hc' : connected w').
  { destruct Hc as [Hh Hcl]. split; [|exact Hcl].
    unfold healthy in *. subst w'. by destruct (ready w) as [[] ? ?]. }
  assert (Hf' : _fanout_queues w' !! q = None) by (subst w'; simpl; by rewrite Efq).
  assert (Hpq : find_docs q (coll_messages (server w')) = []).
  { subst w'. destruct (ready w) as [[] ? ?]. simpl.
    apply find_docs_remove_same. }
  exists w'. split; [reflexivity|]. split; [|split].
  - rewrite size_p2p_connected by done. unfold pending. by rewrite Hpq.
  - rewrite get_p2p_connected by done. unfold findandmodify.
    rewrite (min_id_doc_none _ _ Hpq).
    assert (Enm' : fam_no_match (server w') = fam_no_match (server w)).
    { subst w'. rewrite <- Enm. by destruct (ready w) as [[] ? ?]. }
    rewrite Enm'. unfold no_match_marked in Hnm.
    destruct (fam_no_match (server w)); [rewrite Hnm|];
      by destruct w' as [[] ? ?].
  - intros q' Hne. rewrite <- Hp. subst w'. unfold pending.
    destruct (ready w) as [[] ? ?]. simpl.
    by rewrite find_docs_remove_other.
Qed.

Lemma p2p_purge_witness :
  ∃ w',
    _purge "orders" stocked_world = (Return 3, w') ∧
    _size "orders" w' = (Return 0, w') ∧
    _get (Message:=string) "orders" w' = (Raise Empty, w') ∧
    pending "jobs" w' = ["J"].
Proof.
  destruct (p2p_purge (Message:=string) "orders" stocked_world)
    as (w' & H1 & H2 & H3 & H4).
  - split; [reflexivity|]. left. vm_compute. eauto.
  - reflexivity.
  - exact I.
  - exists w'. split; [exact H1|]. split; [exact H2|]. split; [exact H3|].
    rewrite (H4 "jobs"); [reflexivity | discriminate].
Defined.

(** Point-to-point queues do not disturb one another: an enqueue, a
    dequeue or a purge on [q] leaves what waits in any other queue [q']
    as it was. *)
Theorem p2p_queues_isolated {Message} `{Json Message} (q q' : string)
    (w : World) :
  q ≠ q' →
  connected w →
  _fanout_queues w !! q = None →
  NoDup (map doc_id (coll_messages (server w))) →
  (∀ m : Message, pending q' (snd (_put q m w)) = pending q' w) ∧
  pending q' (snd (_get (Message:=Message) q w)) = pending q' w ∧
  pending q' (snd (_purge q w)) = pending q' w.
Proof.
  intros Hne Hc Hf Hnd. split; [|split].
  - intros m. rewrite put_connected by done. unfold pending.
    destruct w as [[] ? ?]. simpl. rewrite find_docs_app. simpl.
    assert (Hq : queue_is q' (mkDoc next_id0 q (dumps m)) = false).
    { apply (queue_is_other q q'); [done | apply String.eqb_refl]. }
    rewrite Hq. by rewrite app_nil_r.
  - rewrite get_p2p_connected by done. unfold findandmodify.
    destruct (min_id_doc q (coll_messages (server w))) as [d|] eqn:Em.
    + apply min_id_doc_elem in Em as [Hin Hq].
      unfold pending. destruct w as [[] ? ?]. simpl in *.
      rewrite remove_id_other; [done | done | done |].
      by apply (queue_is_other q q').
    + destruct (fam_no_match (server w)) as [msg|];
        [destruct (contains NO_MATCH msg)|]; by destruct w as [[] ? ?].
  - rewrite purge_p2p_connected by done. unfold pending.
    destruct w as [[] ? ?]. simpl. by rewrite find_docs_remove_other.
Qed.

Lemma p2p_queues_isolated_witness :
  (∀ m : string, pending "jobs" (snd (_put "orders" m stocked_world)) = ["J"]) ∧
  pending "jobs" (snd (_get (Message:=string) "orders" stocked_world)) = ["J"] ∧
  pending "jobs" (snd (_purge "orders" stocked_world)) = ["J"].
Proof.
  refine (p2p_queues_isolated (Message:=string) "orders" "jobs" stocked_world
            _ _ _ _).
  - discriminate.
  - split; [reflexivity | vm_compute; eauto].
  - reflexivity.
  - vm_compute. apply NoDup_ListNoDup. repeat constructor; simpl; lia.
Defined.

(** ** Fanout queues: steps, size, purge *)

Lemma fan_sync_inv q E unread w : fan_sync q E unread w → fan_inv q E unread w.
Proof.
  intros (Hc & Hf & cur & Hcur & Hrc & Hrest). split; [done|]. split; [done|].
  eauto.
Qed.

Lemma fan_sync_after_bind E rk p q w :
  connected w →
  fan_sync q E []
    (mkWorld
       (snd (routing_update (mkRoute E q rk p) (server w)))
       (<[q := E]> (_fanout_queues w))
       (set_queue_readcounts
          (<[q := Z.of_nat (broadcasts w)]> (_queue_readcounts (self w)))
          (advance q (mkCursor None (broadcasts w) 0 false false) (self w)))).
Proof.
  intros [Hh Hcl]. destruct w as [s fq c]. destruct s, c.
  unfold fan_sync, connected, healthy, feed, broadcasts in *. simpl in *.
  rewrite lookup_insert_eq. repeat split; try done.
  eexists. rewrite !lookup_insert_eq. repeat split; simpl; try done.
  - by rewrite Nat.add_0_r.
  - lia.
  - rewrite Nat.add_0_r, drop_all. reflexivity.
Qed.

Lemma publish_fan_sync {Message} `{Json Message} q E E' (m : Message) unread w :
  fan_sync q E unread w →
  ∃ w', _put_fanout E' m w = (Return tt, w') ∧
        fan_sync q E (unread ++ [dumps m]) w'.
Proof.
  intros (Hc & Hf & cur & Hcur & Hrc & Hq & Hk & Hle & Hun).
  eexists. split; [by apply put_fanout_connected|].
  destruct w as [d fq c]. destruct d.
  unfold fan_sync, connected, healthy, feed in *. rewrite Hq in *.
  simpl in *. repeat split; try tauto.
  exists cur. rewrite Hq. simpl.
  repeat split; try done.
  - rewrite length_app. lia.
  - rewrite drop_app_le by done. rewrite map_app, Hun. reflexivity.
Qed.

Lemma publish_all_fan_sync {Message} `{Json Message} q E E' (ms : list Message) :
  ∀ unread w,
    fan_sync q E unread w →
    ∃ w', publish_all E' ms w = (Return tt, w') ∧
          fan_sync q E (unread ++ map dumps ms) w'.
Proof.
  induction ms as [|m ms IH]; intros unread w Hinv; simpl.
  - exists w. by rewrite app_nil_r.
  - destruct (publish_fan_sync q E E' m unread w Hinv) as (w1 & Hp & Hinv1).
    destruct (IH _ w1 Hinv1) as (w2 & Hps & Hinv2).
    exists w2. rewrite bind_eq, Hp. split; [done|].
    by rewrite <- app_assoc in Hinv2.
Qed.

Lemma get_fan_sync_some {Message} `{Json Message} q E p rest w :
  fan_sync q E (p :: rest) w →
  ∃ w', _get (Message:=Message) q w = (Return (loads p), w') ∧
        fan_sync q E rest w'.
Proof.
  intros (Hc & Hf & cur & Hcur & Hrc & Hq & Hk & Hle & Hun).
  rewrite (get_fanout_connected q w E cur) by done.
  destruct (drop (c_skip cur + c_retrieved cur) (feed cur w)) as [|d l] eqn:Hd;
    [done|].
  assert (Hlk : feed cur w !! (c_skip cur + c_retrieved cur)%nat = Some d).
  { rewrite <- (Nat.add_0_r (c_skip cur + c_retrieved cur)).
    rewrite <- lookup_drop, Hd. reflexivity. }
  unfold Cursor_next. rewrite Hlk. simpl. rewrite Hrc.
  simpl in Hun. inversion Hun; subst p rest.
  eexists. split; [reflexivity|].
  destruct Hc as [Hh Hcl].
  unfold fan_sync, connected, healthy, feed in *.
  destruct w as [s fq c]. destruct c. simpl in *.
  repeat split; try tauto.
  eexists. rewrite !lookup_insert_eq. repeat split; simpl; try done.
  - f_equal. lia.
  - apply lookup_lt_Some in Hlk. lia.
  - replace (c_skip cur + S (c_retrieved cur))%nat
      with (c_skip cur + c_retrieved cur + 1)%nat by lia.
    rewrite <- drop_drop, Hd. reflexivity.
Qed.

Lemma get_fan_sync_none {Message} `{Json Message} q E w :
  fan_sync q E [] w →
  ∃ w', _get (Message:=Message) q w = (Raise Empty, w') ∧ fan_sync q E [] w'.
Proof.
  intros (Hc & Hf & cur & Hcur & Hrc & Hq & Hk & Hle & Hun).
  rewrite (get_fanout_connected q w E cur) by done.
  apply map_eq_nil in Hun.
  assert (Hlk : feed cur w !! (c_skip cur + c_retrieved cur)%nat = None).
  { rewrite <- (Nat.add_0_r (c_skip cur + c_retrieved cur)).
    rewrite <- lookup_drop, Hun. reflexivity. }
  unfold Cursor_next. rewrite Hlk. simpl.
  eexists. split; [reflexivity|].
  destruct Hc as [Hh Hcl].
  unfold fan_sync, connected, healthy, feed in *.
  destruct w as [s fq c]. destruct c. simpl in *.
  repeat split; try tauto.
  eexists. rewrite !lookup_insert_eq. repeat split; simpl; try done.
  by rewrite Hun.
Qed.

Lemma size_fan_sync q E unread w :
  fan_sync q E unread w →
  _size q w = (Return (Z.of_nat (length unread)), w).
Proof.
  intros (Hc & Hf & cur & Hcur & Hrc & Hq & Hk & Hle & Hun).
  rewrite (size_fanout_connected q E cur _ w) by done.
  rewrite <- Hun, length_map, length_drop. do 2 f_equal. lia.
Qed.

(** One step of a fanout queue between its first bind and a purge.  The
    cursor of the queue ranges over the whole broadcast collection, so a
    publish to any fanout exchange [E'], the exchange [E] of the queue or
    another one, appends to what is unread; the size is the number of
    unread messages; a dequeue returns the oldest unread message, or
    raises [Empty] when everything was read.  The queue stays in that
    state, so the steps chain in any interleaving. *)
Theorem fanout_queue_step {Message} `{Json Message} (q E : string)
    (unread : list string) (w : World) :
  fan_sync q E unread w →
  (∀ (E' : string) (m : Message),
     ∃ w', _put_fanout E' m w = (Return tt, w') ∧
           fan_sync q E (unread ++ [dumps m]) w') ∧
  _size q w = (Return (Z.of_nat (length unread)), w) ∧
  match unread with
  | [] => ∃ w', _get (Message:=Message) q w = (Raise Empty, w') ∧
                fan_sync q E [] w'
  | x :: rest =>
      ∃ w', _get (Message:=Message) q w = (Return (loads x), w') ∧
            fan_sync q E rest w'
  end.
Proof.
  intros Hinv. split; [|split].
  - intros E' m. by apply publish_fan_sync.
  - by apply (size_fan_sync q E).
  - destruct unread as [|x rest].
    + by apply get_fan_sync_none.
    + by apply get_fan_sync_some.
Qed.

Lemma fanout_queue_step_witness :
  (∀ (E' : string) (m : string),
     ∃ w', _put_fanout E' m unread_world = (Return tt, w') ∧
           fan_sync "q1" "logs" (["x"; "y"; "z"] ++ [dumps m]) w') ∧
  _size "q1" unread_world = (Return 3, unread_world) ∧
  ∃ w', _get (Message:=string) "q1" unread_world = (Return "x", w') ∧
        fan_sync "q1" "logs" ["y"; "z"] w'.
Proof.
  refine (fanout_queue_step (Message:=string) "q1" "logs" ["x"; "y"; "z"]
            unread_world _).
  split; [split; [reflexivity | vm_compute; eauto]|].
  split; [vm_compute; reflexivity|].
  exists (mkCursor None 0 0 false false).
  split; [vm_compute; reflexivity|].
  split; [vm_compute; reflexivity|].
  split; [reflexivity|]. split; [reflexivity|].
  split; [vm_compute; lia | vm_compute; reflexivity].
Defined.

Lemma get_n_fan_sync_prefix {Message} `{Json Message} q E (k : nat) :
  ∀ unread w,
    fan_sync q E unread w →
    (k ≤ length unread)%nat →
    ∃ w', get_n (Message:=Message) q k w =
            (Return (map loads (take k unread)), w') ∧
          fan_sync q E (drop k unread) w'.
Proof.
  induction k as [|k IH]; intros unread w Hinv Hk; simpl.
  - exists w. by rewrite drop_0.
  - destruct unread as [|p rest]; [simpl in Hk; lia|].
    destruct (get_fan_sync_some (Message:=Message) q E p rest w Hinv)
      as (w1 & Hg & Hinv1).
    destruct (IH rest w1 Hinv1) as (w2 & Hn & Hinv2); [simpl in Hk; lia|].
    exists w2. by rewrite bind_eq, Hg, bind_eq, Hn.
Qed.

(** The size of a fanout queue counts what was published after its first
    bind and not yet dequeued: bind [q], publish [ms], dequeue [k] of them
    ([k] at most the number published); the dequeues return the first [k]
    messages and the size is then the number of the others. *)
Theorem fanout_size_counts_unread {Message} `{JsonRoundTrip Message}
    (E rk p q : string) (ms : list Message) (k : nat) (w : World) :
  usable w →
  typeof (self w) E = "fanout" →
  _queue_cursors (self w) !! q = None →
  (k ≤ length ms)%nat →
  ∃ w0 w1 w2,
    _queue_bind E rk p q w = (Return tt, w0) ∧
    publish_all E ms w0 = (Return tt, w1) ∧
    get_n q k w1 = (Return (take k ms), w2) ∧
    _size q w2 = (Return (Z.of_nat (length ms - k)), w2).
Proof.
  intros Hu Ht Hcur Hk.
  destruct (ready_same_data w)
    as (_ & _ & _ & _ & Eb & _ & _ & _ & _ & _ & Ecur & _).
  rewrite queue_bind_ready by done.
  rewrite (queue_bind_fresh_connected E rk p q (ready w));
    [| by apply ready_connected | by rewrite typeof_ready | by rewrite Ecur].
  pose proof (fan_sync_after_bind E rk p q (ready w) (ready_connected w Hu)) as Hinv.
  destruct (publish_all_fan_sync q E E ms [] _ Hinv) as (w1 & Hp & Hinv1).
  simpl app in Hinv1.
  destruct (get_n_fan_sync_prefix (Message:=Message) q E k _ w1 Hinv1)
    as (w2 & Hg & Hinv2); [by rewrite length_map|].
  eexists _, w1, w2. split; [reflexivity|]. split; [exact Hp|]. split.
  - rewrite Hg. f_equal. f_equal.
    rewrite firstn_map, map_map.
    rewrite (map_ext _ id) by (intros x; apply loads_dumps).
    apply map_id.
  - rewrite (size_fan_sync q E _ w2 Hinv2).
    by rewrite length_drop, length_map.
Qed.

Lemma fanout_size_counts_unread_witness :
  ∃ w0 w1 w2,
    _queue_bind "logs" "" "" "q1" fresh_world = (Return tt, w0) ∧
    publish_all "logs" ["x"; "y"; "z"] w0 = (Return tt, w1) ∧
    get_n "q1" 1 w1 = (Return ["x"], w2) ∧
    _size "q1" w2 = (Return 2, w2).
Proof.
  apply (fanout_size_counts_unread "logs" "" "" "q1" ["x"; "y"; "z"] 1 fresh_world).
  - split; [reflexivity|]. right. split; [simpl; eauto | reflexivity].
  - reflexivity.
  - reflexivity.
  - simpl. lia.
Defined.

(** Purging a fanout queue marks everything stored as read: whatever was
    unread, the dequeues after the purge return exactly the messages
    published after it, in publish order, then [Empty]. *)
Theorem fanout_purge_marks_read {Message} `{JsonRoundTrip Message}
    (q E : string) (unread : list string) (ms : list Message) (w : World) :
  fan_inv q E unread w →
  ∃ n w0 w1 w2 w3,
    _purge q w = (Return n, w0) ∧
    publish_all E ms w0 = (Return tt, w1) ∧
    get_n q (length ms) w1 = (Return ms, w2) ∧
    _get (Message:=Message) q w2 = (Raise Empty, w3).
Proof.
  intros (Hc & Hf & cur & rc & Hcur & Hrc & Hq & Hk & Hle & Hun).
  pose proof (purge_fanout_connected q E cur rc w Hc Hf Hcur Hrc) as Hp.
  set (w0 := set_self
               (advance q (mkCursor (c_spec cur) (length (feed cur w)) 0 false false)
                  (self w)) w) in Hp.
  assert (Hinv0 : fan_inv q E [] w0).
  { destruct Hc as [Hh Hcl]. subst w0.
    unfold fan_inv, connected, healthy, feed in *.
    destruct w as [s fq c]. destruct c. simpl in *.
    repeat split; try tauto.
    eexists _, rc. rewrite !lookup_insert_eq. repeat split; simpl; try done.
    - lia.
    - rewrite Nat.add_0_r, drop_all. reflexivity. }
  destruct (publish_all_fan_inv q E E ms [] w0 Hinv0) as (w1 & Hpub & Hinv1).
  destruct (get_n_fan_inv (Message:=Message) q E _ w1 Hinv1) as (w2 & Hg & Hinv2).
  destruct (get_fan_inv_none (Message:=Message) q E w2 Hinv2) as (w3 & He & _).
  eexists _, w0, w1, w2, w3. split; [exact Hp|]. split; [exact Hpub|].
  split; [|exact He].
  simpl app in Hg. rewrite length_map, map_map in Hg.
  rewrite (map_ext _ id) in Hg by (intros x; apply loads_dumps).
  by rewrite map_id in Hg.
Qed.

Lemma fanout_purge_marks_read_witness :
  ∃ n w0 w1 w2 w3,
    _purge "q1" unread_world = (Return n, w0) ∧
    publish_all "logs" ["new"] w0 = (Return tt, w1) ∧
    get_n "q1" 1 w1 = (Return ["new"], w2) ∧
    _get (Message:=string) "q1" w2 = (Raise Empty, w3).
Proof.
  apply (fanout_purge_marks_read "q1" "logs" ["x"; "y"; "z"] ["new"] unread_world).
  split; [split; [reflexivity | vm_compute; eauto]|].
  split; [vm_compute; reflexivity|].
  exists (mkCursor None 0 0 false false), 0.
  split; [vm_compute; reflexivity|].
  split; [vm_compute; reflexivity|].
  split; [reflexivity|]. split; [reflexivity|].
  split; [vm_compute; lia | vm_compute; reflexivity].
Defined.

(** A queue found in the fanout registry without a cursor on this channel
    (registered through another channel, or deleted and registered again)
    gets its cursor at the first [_size] or [_get].  The cursor carries no
    filter and is placed after every document of the broadcast
    collection, of whatever exchange: the size is zero and the dequeue
    raises [Empty], however many broadcasts are stored. *)
Theorem fanout_cursor_created_on_first_use {Message} `{Json Message}
    (q E : string) (w : World) :
  connected w →
  _fanout_queues w !! q = Some E →
  _queue_cursors (self w) !! q = None →
  ∃ w1 w2,
    _size q w = (Return 0, w1) ∧
    _queue_cursors (self w1) !! q
      = Some (mkCursor None (broadcasts w) 0 false false) ∧
    _queue_readcounts (self w1) !! q = Some (Z.of_nat (broadcasts w)) ∧
    _get (Message:=Message) q w = (Raise Empty, w2) ∧
    fan_sync q E [] w2.
Proof.
  intros Hc Hf Hcur.
  pose proof (ensure_cursor_fresh q E w Hc Hf Hcur) as He.
  set (w1 := set_self
               (set_queue_readcounts
                  (<[q := Z.of_nat (broadcasts w)]> (_queue_readcounts (self w)))
                  (advance q (mkCursor None (broadcasts w) 0 false false) (self w))) w)
    in He.
  assert (Hinv1 : fan_sync q E [] w1).
  { destruct Hc as [Hh Hcl]. subst w1.
    unfold fan_sync, connected, healthy, feed, broadcasts in *.
    destruct w as [s fq c]. destruct c. simpl in *.
    repeat split; try tauto.
    eexists. rewrite !lookup_insert_eq. repeat split; simpl; try done.
    - by rewrite Nat.add_0_r.
    - lia.
    - rewrite Nat.add_0_r, drop_all. reflexivity. }
  assert (Hs : _size q w = _size q w1).
  { unfold _size. rewrite !bind_eq. unfold get_fanout_queues.
    assert (Hf1 : _fanout_queues w1 = _fanout_queues w) by reflexivity.
    rewrite Hf1, Hf. simpl. rewrite !bind_eq, He.
    destruct Hinv1 as (Hc1 & Hf1' & cur1 & Hcur1 & _).
    by rewrite (ensure_cursor_present q w1 E cur1) by (done || apply Hc1). }
  assert (Hg : _get (Message:=Message) q w = _get q w1).
  { unfold _get, catch. rewrite !bind_eq. unfold get_fanout_queues.
    assert (Hf1 : _fanout_queues w1 = _fanout_queues w) by reflexivity.
    rewrite Hf1, Hf. simpl. rewrite !bind_eq, He.
    destruct Hinv1 as (Hc1 & Hf1' & cur1 & Hcur1 & _).
    by rewrite (ensure_cursor_present q w1 E cur1) by (done || apply Hc1). }
  destruct (get_fan_sync_none (Message:=Message) q E w1 Hinv1) as (w2 & Hg2 & Hinv2).
  exists w1, w2. split; [by rewrite Hs, (size_fan_sync q E [] w1)|].
  split.
  { subst w1. destruct w as [? ? []]. simpl. by rewrite lookup_insert_eq. }
  split.
  { subst w1. destruct w as [? ? []]. simpl. by rewrite lookup_insert_eq. }
  split; [by rewrite Hg | done].
Qed.

Lemma fanout_cursor_created_on_first_use_witness :
  ∃ w1 w2,
    _size "q1" second_view = (Return 0, w1) ∧
    _queue_cursors (self w1) !! "q1"
      = Some (mkCursor None (broadcasts second_view) 0 false false) ∧
    _queue_readcounts (self w1) !! "q1"
      = Some (Z.of_nat (broadcasts second_view)) ∧
    _get (Message:=string) "q1" second_view = (Raise Empty, w2) ∧
    fan_sync "q1" "logs" [] w2.
Proof.
  apply (fanout_cursor_created_on_first_use (Message:=string) "q1" "logs" second_view).
  - split; [reflexivity | vm_compute; eauto].
  - vm_compute. reflexivity.
  - vm_compute. reflexivity.
Defined.

(** A message enqueued with [_put] on a queue that is registered as a
    fanout queue goes to the point-to-point collection; the fanout side of
    the queue, which is what [_get] reads, is as before, so no dequeue of
    that queue ever returns it. *)
Theorem put_on_fanout_queue_not_delivered {Message} `{Json Message}
    (q E : string) (unread : list string) (m : Message) (w : World) :
  fan_sync q E unread w →
  ∃ w',
    _put q m w = (Return tt, w') ∧
    pending q w' = (pending q w ++ [dumps m])%list ∧
    fan_sync q E unread w'.
Proof.
  intros (Hc & Hf & cur & Hcur & Hrc & Hq & Hk & Hle & Hun).
  rewrite put_connected by done. eexists. split; [reflexivity|].
  destruct Hc as [Hh Hcl].
  unfold fan_sync, connected, healthy, feed, pending in *.
  destruct w as [s fq c]. destruct s. simpl in *.
  split.
  { rewrite find_docs_app, map_app. simpl.
    assert (Hqi : queue_is q (mkDoc next_id0 q (dumps m)) = true)
      by apply String.eqb_refl.
    by rewrite Hqi. }
  repeat split; try tauto. exists cur. repeat split; done.
Qed.

Lemma put_on_fanout_queue_not_delivered_witness :
  ∃ w',
    _put "q1" "m" bound_world = (Return tt, w') ∧
    pending "q1" w' = (pending "q1" bound_world ++ [dumps "m"])%list ∧
    fan_sync "q1" "logs" [] w'.
Proof.
  apply (put_on_fanout_queue_not_delivered (Message:=string) "q1" "logs" [] "m"
           bound_world).
  split; [split; [reflexivity | vm_compute; eauto]|].
  split; [vm_compute; reflexivity|].
  exists (mkCursor None 0 0 false false).
  split; [vm_compute; reflexivity|].
  split; [vm_compute; reflexivity|].
  split; [reflexivity|]. split; [reflexivity|].
  split; [vm_compute; lia | vm_compute; reflexivity].
Defined.

(** ** Bootstrap: the version gate, the virtual host, a second bootstrap *)

(** The gate of [_open] looks at the first two components of the version
    only: with a version [a.b...] the first use of [client] succeeds when
    [a > 1], or [a = 1] and [b >= 3], and raises [NotImplementedError]
    otherwise, whatever follows [b]. *)
Theorem version_gate_major_minor (a b : Z) (rest : list Z) (w : World) :
  healthy w →
  is_Some (virtual_host (connection_client (self w))) →
  _client (self w) = None →
  version (server w) = a :: b :: rest →
  if decide (1 < a ∨ (a = 1 ∧ 3 ≤ b))
  then ∃ h w', client w = (Return h, w') ∧ _client (self w') = Some h
  else ∃ msg, client w = (Raise (NotImplementedError msg), w).
Proof.
  intros Hh Hvh Hc Hv.
  assert (Hs : supported (server w) = bool_decide (1 < a ∨ (a = 1 ∧ 3 ≤ b))).
  { unfold supported. rewrite Hv. unfold take, tuple_lt.
    destruct (Z.ltb_spec a 1); simpl.
    - symmetry. apply bool_decide_eq_false. lia.
    - destruct (Z.ltb_spec 1 a); simpl.
      + symmetry. apply bool_decide_eq_true. lia.
      + destruct (Z.ltb_spec b 3); simpl.
        * symmetry. apply bool_decide_eq_false. lia.
        * destruct (Z.ltb_spec 3 b); simpl;
            symmetry; apply bool_decide_eq_true; lia. }
  destruct (decide (1 < a ∨ (a = 1 ∧ 3 ≤ b))) as [Hok|Hno].
  - rewrite bool_decide_eq_true_2 in Hs by done.
    eexists _, _. split; [by apply client_first_use | reflexivity].
  - rewrite bool_decide_eq_false_2 in Hs by done.
    destruct (open_unsupported w Hh Hvh Hs) as [msg Ho].
    exists msg. unfold client. rewrite bind_eq. unfold get_self. rewrite Hc.
    by rewrite bind_eq, Ho.
Qed.

Lemma version_gate_major_minor_witness :
  (∃ h w', client fresh_world = (Return h, w') ∧ _client (self w') = Some h) ∧
  (∃ msg, client (mkWorld old_db ∅ fresh_channel)
          = (Raise (NotImplementedError msg), mkWorld old_db ∅ fresh_channel)).
Proof.
  split.
  - apply (version_gate_major_minor 2 4 [9] fresh_world);
      [reflexivity | simpl; eauto | reflexivity | reflexivity].
  - apply (version_gate_major_minor 1 2 [4] (mkWorld old_db ∅ fresh_channel));
      [reflexivity | simpl; eauto | reflexivity | reflexivity].
Defined.

(** A channel whose connection has no virtual host cannot connect:
    although [_open] picks the default database name for [None], the
    hostname rewrite concatenates ['/'] with it and raises [TypeError]
    before the server is contacted; every method that needs the handle
    fails the same way and leaves the world as it is. *)
Theorem no_virtual_host_type_error {Message} `{Json Message}
    (q : string) (m : Message) (w : World) :
  _client (self w) = None →
  virtual_host (connection_client (self w)) = None →
  client w = (Raise TypeError, w) ∧
  _put q m w = (Raise TypeError, w) ∧
  _put_fanout q m w = (Raise TypeError, w).
Proof.
  intros Hc Hvh.
  assert (Ho : _open w = (Raise TypeError, w)).
  { unfold _open. rewrite bind_eq. unfold get_self. rewrite Hvh.
    by rewrite bind_eq. }
  assert (Hcl : client w = (Raise TypeError, w)).
  { unfold client. rewrite bind_eq. unfold get_self. rewrite Hc.
    by rewrite bind_eq, Ho. }
  split; [exact Hcl|]. split.
  - unfold _put. by rewrite bind_eq, Hcl.
  - unfold _put_fanout. by rewrite bind_eq, Hcl.
Qed.

Lemma no_virtual_host_type_error_witness :
  let w := mkWorld fresh_db ∅
             (mkChannel (mkClient (Some "localhost") None None false None)
                ∅ None None None None ∅ ∅) in
  client w = (Raise TypeError, w) ∧
  _put "orders" "A" w = (Raise TypeError, w) ∧
  _put_fanout "orders" "A" w = (Raise TypeError, w).
Proof.
  apply (no_virtual_host_type_error (Message:=string)); reflexivity.
Defined.

(** ** A failing server *)

(** The channel writes without asking the server for an acknowledgement.
    On a server that fails its requests, an enqueue and a publish through
    an opened channel return normally although no document is written;
    on a channel not yet opened they raise the server's
    [OperationFailure], from the bootstrap.  The size and the purge of a
    point-to-point queue, which read the collection first, raise the
    [OperationFailure].  In every case the server and the channel are as
    before. *)
Theorem failing_server_writes_unnoticed {Message} `{Json Message}
    (q : string) (m : Message) (msg : string) (w : World) :
  fault (server w) = Some msg →
  (is_Some (_client (self w)) →
   _put q m w = (Return tt, w) ∧
   _put_fanout q m w = (Return tt, w)) ∧
  (_client (self w) = None →
   is_Some (virtual_host (connection_client (self w))) →
   _put q m w = (Raise (OperationFailure msg), w) ∧
   _put_fanout q m w = (Raise (OperationFailure msg), w)) ∧
  (is_Some (_client (self w)) ∨
   is_Some (virtual_host (connection_client (self w))) →
   _fanout_queues w !! q = None →
   _size q w = (Raise (OperationFailure msg), w) ∧
   _purge q w = (Raise (OperationFailure msg), w)).
Proof.
  intros Hf. split; [|split].
  - intros [h Hc].
    assert (Hk : ∀ f, (client ≫= λ _, write f) w = (Return tt, w)).
    { intros f. rewrite bind_eq, (client_cached w h Hc).
      by apply (write_fault f w msg). }
    split; apply Hk.
  - intros Hc Hvh.
    assert (Hk : ∀ f, (client ≫= λ _, write f) w
                      = (Raise (OperationFailure msg), w)).
    { intros f. rewrite bind_eq. unfold client. rewrite bind_eq.
      unfold get_self. rewrite Hc.
      by rewrite bind_eq, (open_fault w msg). }
    split; apply Hk.
  - intros Hcfg Hfq.
    assert (Hs : _size q w = (Raise (OperationFailure msg), w)).
    { unfold _size. rewrite bind_eq. unfold get_fanout_queues. rewrite Hfq.
      simpl. rewrite bind_eq.
      destruct (client_fault w msg Hf Hcfg) as [[h ->] | ->]; [|done].
      by apply request_fault. }
    split; [exact Hs|]. unfold _purge. by rewrite bind_eq, Hs.
Qed.

Lemma failing_server_writes_unnoticed_witness :
  let w := mkWorld failing_db ∅ fresh_channel in
  let w' := mkWorld failing_db ∅ (set_client (Some "kombu_default") fresh_channel) in
  (_put "orders" "A" w' = (Return tt, w') ∧
   _put_fanout "logs" "A" w' = (Return tt, w')) ∧
  (_put "orders" "A" w = (Raise (OperationFailure "not master"), w) ∧
   _put_fanout "orders" "A" w = (Raise (OperationFailure "not master"), w)) ∧
  (_size "orders" w' = (Raise (OperationFailure "not master"), w') ∧
   _purge "orders" w' = (Raise (OperationFailure "not master"), w')).
Proof.
  intros w w'.
  split; [|split].
  - apply (failing_server_writes_unnoticed (Message:=string) "orders" "A"
             "not master" w'); [reflexivity | simpl; eauto].
  - apply (failing_server_writes_unnoticed (Message:=string) "orders" "A"
             "not master" w); [reflexivity | reflexivity | simpl; eauto].
  - apply (failing_server_writes_unnoticed (Message:=string) "orders" "A"
             "not master" w'); [reflexivity | left; simpl; eauto | reflexivity].
Defined.



(** ** A second bootstrap on the same database *)

Lemma ensure_index_makes_collection c k d :
  has_collection c (snd (ensure_index c k d)) = true.
Proof.
  unfold ensure_index, has_collection. simpl.
  destruct (existsb (String.eqb c) (map fst (collections d))) eqn:E; [done|].
  rewrite map_app, existsb_app. simpl. rewrite String.eqb_refl.
  by rewrite orb_true_r.
Qed.

Lemma ensure_index_keeps_collection n c k d :
  has_collection n d = true → has_collection n (snd (ensure_index c k d)) = true.
Proof.
  unfold ensure_index, has_collection. simpl. intros Hn.
  destruct (existsb (String.eqb c) (map fst (collections d))); [done|].
  rewrite map_app, existsb_app, Hn. reflexivity.
Qed.

Lemma create_collection_keeps_collection n c sz cp d :
  has_collection n d = true →
  has_collection n (snd (create_collection c sz cp d)) = true.
Proof.
  unfold create_collection. intros Hn.
  destruct (has_collection c d) eqn:E; [done|].
  unfold has_collection in *. simpl. rewrite map_app, existsb_app, Hn.
  reflexivity.
Qed.

Lemma create_collection_makes_collection c sz cp d :
  has_collection c (snd (create_collection c sz cp d)) = true.
Proof.
  unfold create_collection.
  destruct (has_collection c d) eqn:E; [done|].
  unfold has_collection. simpl. rewrite map_app, existsb_app. simpl.
  rewrite String.eqb_refl. by rewrite orb_true_r.
Qed.

Lemma bootstrap_schema_collections cl d :
  has_collection "messages" (bootstrap_schema cl d) = true ∧
  has_collection "messages.broadcast" (bootstrap_schema cl d) = true ∧
  has_collection "messages.routing" (bootstrap_schema cl d) = true.
Proof.
  unfold bootstrap_schema. cbv zeta. split; [|split].
  - do 2 apply ensure_index_keeps_collection.
    destruct (has_collection "messages.broadcast" _);
      [|apply create_collection_keeps_collection];
      apply ensure_index_makes_collection.
  - apply ensure_index_keeps_collection, ensure_index_makes_collection.
  - apply ensure_index_makes_collection.
Qed.

Lemma ensure_index_present c k d :
  has_collection c d = true →
  has_index c k d = true →
  collections (snd (ensure_index c k d)) = collections d ∧
  indexes (snd (ensure_index c k d)) = indexes d.
Proof. unfold ensure_index. simpl. intros -> ->. done. Qed.

(** Once a database went through a bootstrap, a further bootstrap on it
    creates nothing: its collections and its indexes are the same
    afterwards. *)
Lemma bootstrap_schema_again cl cl' d :
  collections (bootstrap_schema cl' (bootstrap_schema cl d))
    = collections (bootstrap_schema cl d) ∧
  indexes (bootstrap_schema cl' (bootstrap_schema cl d))
    = indexes (bootstrap_schema cl d).
Proof.
  destruct (bootstrap_schema_collections cl d) as (Hm & Hb & Hr).
  assert (Hi : ∀ c k,
    (c, k) = ("messages", [("queue", 1); ("_id", 1)]) ∨
    (c, k) = ("messages.broadcast", [("queue", 1)]) ∨
    (c, k) = ("messages.routing", [("queue", 1); ("exchange", 1)]) →
    has_index c k (bootstrap_schema cl d) = true).
  { intros c k Hck. apply bootstrap_schema_index. by right. }
  set (d1 := bootstrap_schema cl d) in *.
  unfold bootstrap_schema. cbv zeta.
  destruct (ensure_index_present "messages" [("queue", 1); ("_id", 1)] d1)
    as [Hc1 Hx1]; [done | apply Hi; tauto |].
  set (d2 := snd (ensure_index "messages" [("queue", 1); ("_id", 1)] d1)) in *.
  assert (Hb2 : has_collection "messages.broadcast" d2 = true)
    by (unfold has_collection in *; by rewrite Hc1).
  rewrite Hb2.
  destruct (ensure_index_present "messages.broadcast" [("queue", 1)] d2)
    as [Hc2 Hx2].
  { done. }
  { unfold has_index in *. rewrite Hx1. apply Hi. tauto. }
  set (d3 := snd (ensure_index "messages.broadcast" [("queue", 1)] d2)) in *.
  destruct (ensure_index_present "messages.routing"
              [("queue", 1); ("exchange", 1)] d3) as [Hc3 Hx3].
  { unfold has_collection in *. by rewrite Hc2, Hc1. }
  { unfold has_index in *. rewrite Hx2, Hx1. apply Hi. tauto. }
  by rewrite Hc3, Hx3, Hc2, Hx2, Hc1, Hx1.
Qed.

(** When a second channel connects to a database a first channel has
    bootstrapped, its own bootstrap succeeds and leaves the collections
    and the indexes of the database as they are, whatever its own
    configuration of the capped size. *)
Theorem second_bootstrap_keeps_schema (w : World) (c2 : Channel) :
  healthy w →
  is_Some (virtual_host (connection_client (self w))) →
  _client (self w) = None →
  supported (server w) = true →
  is_Some (virtual_host (connection_client c2)) →
  _client c2 = None →
  ∃ h1 w1 h2 w2,
    client w = (Return h1, w1) ∧
    client (set_self c2 w1) = (Return h2, w2) ∧
    collections (server w2) = collections (server w1) ∧
    indexes (server w2) = indexes (server w1).
Proof.
  intros Hh Hvh Hc Hv Hvh2 Hc2.
  destruct (opened_same_data w) as (Ev & Ef & _).
  eexists _, (opened w), _, (opened (set_self c2 (opened w))).
  split; [by apply client_first_use|]. split.
  - apply client_first_use; try done.
    + unfold healthy in *. change (fault (server (opened w)) = None).
      by rewrite Ef.
    + unfold supported in *.
      change (negb (tuple_lt (take 2 (version (server (opened w)))) [1; 3])
              = true).
      by rewrite Ev.
  - apply (bootstrap_schema_again (connection_client (self w))
             (connection_client c2) (server w)).
Qed.

Lemma second_bootstrap_keeps_schema_witness :
  ∃ h1 w1 h2 w2,
    client fresh_world = (Return h1, w1) ∧
    client (set_self fresh_channel w1) = (Return h2, w2) ∧
    collections (server w2) = collections (server w1) ∧
    indexes (server w2) = indexes (server w1).
Proof.
  apply (second_bootstrap_keeps_schema fresh_world fresh_channel);
    [reflexivity | simpl; eauto | reflexivity | reflexivity
    | simpl; eauto | reflexivity].
Defined.

(** ** Deleting a queue *)

(** [queue_delete] on a channel that never connected fails with
    [AttributeError] (the attribute [routing] is set by the bootstrap) and
    touches nothing.  On a channel that has the attribute, and with a base
    deletion that returns and leaves routing rows and registry alone, it
    removes every routing row of the queue and no other row, and drops the
    queue from the fanout registry; the cursor of a fanout queue is
    dropped with it, so that a later bind starts from a new cursor. *)
Theorem queue_delete_removes_bindings (super_queue_delete : string → M unit)
    (q : string) (w w1 : World) :
  match routing (self w) with
  | None =>
      queue_delete super_queue_delete q w = (Raise (AttributeError "routing"), w)
  | Some _ =>
      healthy w →
      super_queue_delete q (set_server (snd (routing_remove q (server w))) w)
        = (Return tt, w1) →
      coll_routing (server w1) = coll_routing (snd (routing_remove q (server w))) →
      _fanout_queues w1 = _fanout_queues w →
      ∃ w',
        queue_delete super_queue_delete q w = (Return tt, w') ∧
        (∀ r, r ∈ coll_routing (server w') ↔
              r ∈ coll_routing (server w) ∧ r_queue r ≠ q) ∧
        _fanout_queues w' = delete q (_fanout_queues w) ∧
        (is_Some (_fanout_queues w !! q) → _queue_cursors (self w') !! q = None)
  end.
Proof.
  destruct (routing (self w)) as [rt|] eqn:Hrt.
  - intros Hh Hsup Hrows Hfq.
    assert (Hmem : ∀ r, r ∈ coll_routing (server w1) ↔
                        r ∈ coll_routing (server w) ∧ r_queue r ≠ q).
    { intros r. rewrite Hrows. simpl.
      rewrite !list_elem_of_In, filter_In, negb_true_iff, String.eqb_neq.
      reflexivity. }
    unfold queue_delete. rewrite bind_eq. unfold get_self. rewrite Hrt.
    rewrite bind_eq, write_healthy by done.
    change (fst (routing_remove q (server w))) with (Return (A:=unit) tt).
    rewrite bind_eq, Hsup, bind_eq. unfold get_fanout_queues. rewrite Hfq.
    destruct (_fanout_queues w !! q) as [e|] eqn:He; simpl.
    + rewrite bind_eq. unfold modify_self, modify_fanout_queues. simpl.
      eexists. split; [reflexivity|]. simpl.
      split; [exact Hmem|]. split; [by rewrite Hfq|].
      intros _. apply lookup_delete_eq.
    + exists w1. split; [reflexivity|]. split; [exact Hmem|].
      split; [|by intros [? ?]].
      rewrite Hfq. symmetry. by apply delete_id.
  - unfold queue_delete. rewrite bind_eq. unfold get_self. by rewrite Hrt.
Qed.

Lemma queue_delete_removes_bindings_witness :
  (∃ w',
     queue_delete (λ _, mret tt) "q1" bound_world = (Return tt, w') ∧
     _fanout_queues w' = delete "q1" (_fanout_queues bound_world) ∧
     _queue_cursors (self w') !! "q1" = None) ∧
  queue_delete (λ _, mret tt) "q1" fresh_world
    = (Raise (AttributeError "routing"), fresh_world).
Proof.
  split.
  - pose proof (queue_delete_removes_bindings (λ _, mret tt) "q1" bound_world
                  (set_server (snd (routing_remove "q1" (server bound_world)))
                     bound_world)) as H.
    change (routing (self bound_world)) with (Some "messages.routing") in H.
    destruct H as (w' & H1 & _ & H3 & H4);
      [reflexivity | reflexivity | reflexivity | reflexivity |].
    exists w'. split; [exact H1|]. split; [exact H3|].
    apply H4. vm_compute. eauto.
  - apply (queue_delete_removes_bindings (λ _, mret tt) "q1" fresh_world fresh_world).
Defined.

(** ** Bindings seen from another channel *)

Lemma upsert_elem meta l : meta ∈ upsert meta l.
Proof.
  induction l as [|r l IH]; simpl; [by left|].
  destruct (route_eqb r meta); [by left | by right].
Qed.

Lemma queue_bind_usable E rk p q w :
  usable w →
  ∃ w', _queue_bind E rk p q w = (Return tt, w') ∧
        connected w' ∧
        mkRoute E q rk p ∈ coll_routing (server w').
Proof.
  intros Hu. rewrite queue_bind_ready by done.
  destruct (queue_bind_connected E rk p q (ready w) (ready_connected w Hu))
    as (w' & Hb & Hc & Hr & _).
  exists w'. split; [done|]. split; [done|]. rewrite Hr. apply upsert_elem.
Qed.

(** The routing rows are read through on every lookup: a binding made on
    one channel is in the table another connected channel of the process
    gets from [get_table] for that exchange, provided the exchange is
    declared there. *)
Theorem bindings_visible_across_channels (E rk pt q : string) (ex : Exchange)
    (i j : nat) (p : Process) (wi wj : World) :
  i ≠ j →
  view i p = Some wi →
  view j p = Some wj →
  usable wi →
  is_Some (_client (self wj)) →
  state_exchanges (self wj) !! E = Some ex →
  ∃ p1 t p2,
    run_on i (_queue_bind E rk pt q) p = Some (Return tt, p1) ∧
    run_on j (get_table E) p1 = Some (Return t, p2) ∧
    (rk, pt, q) ∈ t.
Proof.
  intros Hne Hi Hj Hu Hcj Hex.
  destruct (queue_bind_usable E rk pt q wi Hu) as (w' & Hb & [Hh' _] & Hin).
  assert (Hcj' : p_channels p !! j = Some (self wj)).
  { unfold view in Hj. destruct (p_channels p !! j); [|done].
    by inversion Hj. }
  set (wj' := mkWorld (server w') (_fanout_queues w') (self wj)).
  assert (Hconn : connected wj') by (split; [exact Hh' | exact Hcj]).
  pose proof (get_table_connected E ex wj' Hconn Hex) as Hg.
  eexists _, _, _. split; [|split].
  - unfold run_on. rewrite Hi, Hb. reflexivity.
  - unfold run_on, view. simpl.
    rewrite list_lookup_insert_ne by done. rewrite Hcj'.
    fold wj'. rewrite Hg. reflexivity.
  - apply elem_of_union. right. apply elem_of_list_to_set.
    apply list_elem_of_In, in_map_iff. exists (mkRoute E q rk pt).
    split; [reflexivity|]. apply filter_In.
    split; [by apply list_elem_of_In | apply String.eqb_refl].
Qed.

Lemma bindings_visible_across_channels_witness :
  ∃ p1 t p2,
    run_on 0 (_queue_bind "ev" "k2" "p2" "q2")
      (mkProcess fresh_db ∅
         [fresh_channel; set_client (Some "kombu_default") fresh_channel])
      = Some (Return tt, p1) ∧
    run_on 1 (get_table "ev") p1 = Some (Return t, p2) ∧
    ("k2", "p2", "q2") ∈ t.
Proof.
  apply (bindings_visible_across_channels "ev" "k2" "p2" "q2"
           (mkExchange "direct" [("k", "p", "q")]) 0 1
           (mkProcess fresh_db ∅
              [fresh_channel; set_client (Some "kombu_default") fresh_channel])
           fresh_world
           (mkWorld fresh_db ∅ (set_client (Some "kombu_default") fresh_channel))).
  - lia.
  - reflexivity.
  - reflexivity.
  - split; [reflexivity|]. right. split; [simpl; eauto | reflexivity].
  - simpl. eauto.
  - vm_compute. reflexivity.
Defined.

(** ** Binding to other exchanges *)

(** Binding a queue to an exchange that is not of fanout type (or is not
    declared, which counts as direct) writes the routing row and nothing
    else: the fanout registry, the cursors and the read counts are as
    before. *)
Theorem bind_direct_keeps_fanout_state (E rk p q : string) (w : World) :
  usable w →
  typeof (self w) E ≠ "fanout" →
  ∃ w',
    _queue_bind E rk p q w = (Return tt, w') ∧
    mkRoute E q rk p ∈ coll_routing (server w') ∧
    _fanout_queues w' = _fanout_queues w ∧
    _queue_cursors (self w') = _queue_cursors (self w) ∧
    _queue_readcounts (self w') = _queue_readcounts (self w).
Proof.
  intros Hu Ht.
  destruct (ready_same_data w)
    as (_ & _ & _ & _ & _ & _ & _ & Efq & _ & _ & Ecur & Erc).
  destruct (ready_connected w Hu) as [Hh [h Hcl]].
  rewrite queue_bind_ready by done.
  unfold _queue_bind. rewrite !bind_eq. unfold get_self.
  rewrite typeof_ready.
  apply String.eqb_neq in Ht. rewrite Ht.
  unfold mret at 1, M_ret, ret.
  rewrite !bind_eq, (client_cached _ h) by exact Hcl.
  rewrite write_healthy by exact Hh.
  eexists. split; [reflexivity|].
  rewrite <- Efq, <- Ecur, <- Erc.
  destruct (ready w) as [[] ? ?]. simpl. split; [apply upsert_elem | done].
Qed.

Lemma bind_direct_keeps_fanout_state_witness :
  ∃ w',
    _queue_bind "ev" "k" "p" "q" fresh_world = (Return tt, w') ∧
    mkRoute "ev" "q" "k" "p" ∈ coll_routing (server w') ∧
    _fanout_queues w' = _fanout_queues fresh_world ∧
    _queue_cursors (self w') = _queue_cursors (self fresh_world) ∧
    _queue_readcounts (self w') = _queue_readcounts (self fresh_world).
Proof.
  apply (bind_direct_keeps_fanout_state "ev" "k" "p" "q" fresh_world).
  - split; [reflexivity|]. right. split; [simpl; eauto | reflexivity].
  - vm_compute. discriminate.
Defined.

(** Binding a fanout queue that has its cursor to a second fanout
    exchange changes the registry entry and nothing else: the cursor and
    the read count stay, and so does what is unread.  The cursor carries
    no filter, so the queue goes on receiving what is published to any
    fanout exchange [E']: after the bind and a publish of [ms] to [E'],
    the dequeues return what was unread and then [ms], in publish
    order. *)
Theorem rebind_keeps_cursor {Message} `{JsonRoundTrip Message}
    (q E1 E2 E' rk p : string) (unread : list string) (ms : list Message)
    (w : World) :
  fan_sync q E1 unread w →
  typeof (self w) E2 = "fanout" →
  ∃ w1 w2 w3,
    _queue_bind E2 rk p q w = (Return tt, w1) ∧
    _fanout_queues w1 !! q = Some E2 ∧
    _queue_cursors (self w1) !! q = _queue_cursors (self w) !! q ∧
    _queue_readcounts (self w1) !! q = _queue_readcounts (self w) !! q ∧
    publish_all E' ms w1 = (Return tt, w2) ∧
    get_n q (length unread + length ms) w2
      = (Return (map loads unread ++ ms)%list, w3).
Proof.
  intros Hs Ht.
  pose proof Hs as (Hc & Hf & cur & Hcur & Hrc & Hq & Hk & Hle & Hun).
  pose proof (queue_bind_again_connected E2 rk p q cur w Hc Ht Hcur) as Hb.
  set (w1 := mkWorld (snd (routing_update (mkRoute E2 q rk p) (server w)))
               (<[q := E2]> (_fanout_queues w)) (self w)) in Hb.
  assert (Hs1 : fan_sync q E2 unread w1).
  { destruct Hc as [Hh Hcl]. subst w1.
    unfold fan_sync, connected, healthy, feed in *.
    destruct w as [s fq c]. destruct s. simpl in *.
    rewrite lookup_insert_eq. repeat split; try done.
    exists cur. done. }
  destruct (publish_all_fan_sync q E2 E' ms unread w1 Hs1) as (w2 & Hp & Hs2).
  destruct (get_n_fan_sync_prefix (Message:=Message) q E2
              (length unread + length ms) _ w2 Hs2) as (w3 & Hg & _).
  { by rewrite length_app, length_map. }
  exists w1, w2, w3. split; [exact Hb|].
  split; [subst w1; simpl; apply lookup_insert_eq|].
  split; [reflexivity|]. split; [reflexivity|]. split; [exact Hp|].
  rewrite Hg. do 2 f_equal.
  rewrite firstn_all2 by (rewrite length_app, length_map; lia).
  rewrite map_app, map_map.
  rewrite (map_ext _ id) by (intros x; apply loads_dumps).
  by rewrite map_id.
Qed.

Lemma rebind_keeps_cursor_witness :
  ∃ w1 w2 w3,
    _queue_bind "alerts" "" "" "q1" rebind_world = (Return tt, w1) ∧
    _fanout_queues w1 !! "q1" = Some "alerts" ∧
    _queue_cursors (self w1) !! "q1" = _queue_cursors (self rebind_world) !! "q1" ∧
    _queue_readcounts (self w1) !! "q1"
      = _queue_readcounts (self rebind_world) !! "q1" ∧
    publish_all "logs" ["a"; "b"] w1 = (Return tt, w2) ∧
    get_n "q1" 2 w2 = (Return ["a"; "b"], w3).
Proof.
  refine (rebind_keeps_cursor (Message:=string)
            "q1" "logs" "alerts" "logs" "" "" [] ["a"; "b"] rebind_world _ _).
  - split; [split; [reflexivity | vm_compute; eauto]|].
    split; [vm_compute; reflexivity|].
    exists (mkCursor None 0 0 false false).
    split; [vm_compute; reflexivity|].
    split; [vm_compute; reflexivity|].
    split; [reflexivity|]. split; [reflexivity|].
    split; [vm_compute; lia | vm_compute; reflexivity].
  - vm_compute. reflexivity.
Defined.



(** ** Looking up the table of an exchange *)

(** [get_table] of an exchange the channel state does not know raises
    [KeyError] at once: no bootstrap is started, no request is sent, and
    the channel is as before.  For a declared exchange on a connected
    channel it changes nothing either, and an entry is in the table
    exactly when it is in the local table of the exchange or is the entry
    of a routing row of that exchange. *)
Theorem get_table_lookup (E : string) (w : World) :
  match state_exchanges (self w) !! E with
  | None => get_table E w = (Raise (KeyError E), w)
  | Some ex =>
      connected w →
      ∃ t,
        get_table E w = (Return t, w) ∧
        ∀ x, x ∈ t ↔
             x ∈ ex_table ex ∨
             ∃ r, r ∈ coll_routing (server w) ∧ r_exchange r = E ∧
                  entry_of r = x
  end.
Proof.
  destruct (state_exchanges (self w) !! E) as [ex|] eqn:Hex.
  - intros Hc. eexists. split; [by apply get_table_connected|].
    intros x. rewrite elem_of_union, !elem_of_list_to_set.
    apply or_iff_compat_l.
    rewrite list_elem_of_In, in_map_iff. split.
    + intros (r & Hx & Hin). apply filter_In in Hin as [Hin He].
      exists r. rewrite list_elem_of_In. apply String.eqb_eq in He. done.
    + intros (r & Hin & He & Hx). exists r. split; [done|].
      apply filter_In. rewrite <- list_elem_of_In.
      split; [done | by apply String.eqb_eq].
  - unfold get_table. rewrite bind_eq. unfold get_self. by rewrite Hex.
Qed.

Lemma get_table_lookup_witness :
  get_table "nope" fresh_world = (Raise (KeyError "nope"), fresh_world) ∧
  ∃ t, get_table "ev" (ready fresh_world) = (Return t, ready fresh_world) ∧
       ("k", "p", "q") ∈ t.
Proof.
  split.
  - apply (get_table_lookup "nope" fresh_world).
  - pose proof (get_table_lookup "ev" (ready fresh_world)) as H.
    change (state_exchanges (self (ready fresh_world)) !! "ev")
      with (Some (mkExchange "direct" [("k", "p", "q")])) in H.
    destruct H as (t & Ht & Hmem); [split; [reflexivity | vm_compute; eauto]|].
    exists t. split; [exact Ht|]. apply Hmem. left. simpl. by left.
Defined.
